(** * LSAT authenticator: a shallow embedding of [auth/authenticator.go]

    The file embeds the three entry points of the authenticator
    ([Accept], [FreshChallengeHeader], and the header codec [FromHeader] /
    [SetHeader]) together with the parts of the Go standard library they
    run on ([encoding/hex], [encoding/base64], the leftmost-first
    semantics of [regexp] for the operators [authRegex] uses, and the
    canonical-key discipline of [http.Header]).

    Go strings are byte sequences: they are modelled as [string] (a list
    of [ascii], one per byte) and [[]byte] as [list ascii].  Unsigned
    machine integers are modelled in [N]; the conversion [byte(x)] is
    [ascii_of_N], which keeps the low eight bits.

    Headers are maps that have been allocated, as the headers of a
    request received by [net/http] are; Go's nil map is not modelled.
    The macaroon package, the caveat extraction and the minter are
    interfaces: every statement holds for all their implementations. *)

From Stdlib Require Import NArith ZArith Lia Ascii String List Bool.
From stdpp Require Import base option gmap strings list.

Local Open Scope string_scope.
Local Open Scope list_scope.
Local Open Scope N_scope.

Abbreviation bytes := (list ascii).

(** ** Error values and log records

    Errors and log lines are never parsed by the program, so [fmt.Errorf],
    [log.Debugf] and [log.Errorf] are kept symbolic: the format string
    together with its arguments.  Errors of the packages the program
    imports have one constructor each. *)

Inductive error : Type :=
  | Errorf (format : string) (args : list value)
  | HexErrLength
  | HexInvalidByteError (c : ascii)
  | Base64CorruptInputError (offset : N)
  | PackageError (pkg msg : string)
with value : Type :=
  | VStr (s : string)
  | VInt (n : N)
  | VErr (e : error).

Inductive Level : Type := LevelDebug | LevelError.

Record LogEntry : Type := mkLog {
  logLevel : Level;
  logFormat : string;
  logArgs : list value
}.

(** ** Byte and string helpers *)

Definition inRange (lo hi c : ascii) : bool :=
  (N_of_ascii lo <=? N_of_ascii c) && (N_of_ascii c <=? N_of_ascii hi).

Fixpoint allChars (p : ascii -> bool) (s : string) : bool :=
  match s with
  | EmptyString => true
  | String c s' => p c && allChars p s'
  end.

(** [s[len(s)-len(s'):]] is [s']: the prefix of [s] that was consumed to
    reach its suffix [s']. *)
Definition consumed (s s' : string) : string :=
  substring 0 (String.length s - String.length s') s.

Fixpoint stripPrefix (p s : string) : option string :=
  match p with
  | EmptyString => Some s
  | String a p' =>
      match s with
      | EmptyString => None
      | String b s' => if Ascii.eqb a b then stripPrefix p' s' else None
      end
  end.

(** ** Package [encoding/hex] *)

Module hex.

Definition hextable : string := "0123456789abcdef".

Definition digit (i : N) : ascii :=
  nth (N.to_nat i) (list_ascii_of_string hextable) "0"%char.

(** [dst[j] = hextable[v>>4]; dst[j+1] = hextable[v&0x0f]] *)
Fixpoint EncodeToString (src : bytes) : string :=
  match src with
  | [] => ""
  | v :: rest =>
      String (digit (N.shiftr (N_of_ascii v) 4))
        (String (digit (N.land (N_of_ascii v) 15)) (EncodeToString rest))
  end.

Definition fromHexChar (c : ascii) : option N :=
  if inRange "0" "9" c then Some (N_of_ascii c - N_of_ascii "0")
  else if inRange "a" "f" c then Some (N_of_ascii c - N_of_ascii "a" + 10)
  else if inRange "A" "F" c then Some (N_of_ascii c - N_of_ascii "A" + 10)
  else None.

(** [Decode] walks the input two characters at a time; a trailing single
    character is reported as an invalid byte when it is one, and as
    [ErrLength] otherwise. *)
Fixpoint DecodeString (s : string) : bytes + error :=
  match s with
  | EmptyString => inl []
  | String a EmptyString =>
      match fromHexChar a with
      | None => inr (HexInvalidByteError a)
      | Some _ => inr HexErrLength
      end
  | String a (String b rest) =>
      match fromHexChar a with
      | None => inr (HexInvalidByteError a)
      | Some x =>
          match fromHexChar b with
          | None => inr (HexInvalidByteError b)
          | Some y =>
              match DecodeString rest with
              | inl bs => inl (ascii_of_N (N.lor (N.shiftl x 4) y) :: bs)
              | inr e => inr e
              end
          end
      end
  end.

End hex.

(** ** Package [encoding/base64], [StdEncoding]

    Standard alphabet, padding character [=], not strict. *)

Module base64.

Definition encodeStd : string :=
  "ABCDEFGHIJKLMNOPQRSTUVWXYZabcdefghijklmnopqrstuvwxyz0123456789+/".

Definition padChar : ascii := "="%char.

(** [enc.encode[i]] *)
Definition encode (i : N) : ascii :=
  nth (N.to_nat i) (list_ascii_of_string encodeStd) "A"%char.

Fixpoint indexOf (c : ascii) (l : list ascii) (i : N) : option N :=
  match l with
  | [] => None
  | x :: l' => if Ascii.eqb x c then Some i else indexOf c l' (i + 1)
  end.

(** [enc.decodeMap[c]]; [None] stands for the entry [0xff]. *)
Definition decodeMap (c : ascii) : option N :=
  indexOf c (list_ascii_of_string encodeStd) 0.

Fixpoint EncodeToString (src : bytes) : string :=
  match src with
  | b0 :: b1 :: b2 :: rest =>
      let val := N.lor (N.lor (N.shiftl (N_of_ascii b0) 16)
                              (N.shiftl (N_of_ascii b1) 8)) (N_of_ascii b2) in
      String (encode (N.land (N.shiftr val 18) 63))
        (String (encode (N.land (N.shiftr val 12) 63))
           (String (encode (N.land (N.shiftr val 6) 63))
              (String (encode (N.land val 63)) (EncodeToString rest))))
  | [b0; b1] =>
      let val := N.lor (N.shiftl (N_of_ascii b0) 16)
                       (N.shiftl (N_of_ascii b1) 8) in
      String (encode (N.land (N.shiftr val 18) 63))
        (String (encode (N.land (N.shiftr val 12) 63))
           (String (encode (N.land (N.shiftr val 6) 63))
              (String padChar "")))
  | [b0] =>
      let val := N.shiftl (N_of_ascii b0) 16 in
      String (encode (N.land (N.shiftr val 18) 63))
        (String (encode (N.land (N.shiftr val 12) 63))
           (String padChar (String padChar "")))
  | [] => ""
  end.

Definition isNewline (c : ascii) : bool :=
  Ascii.eqb c "010"%char || Ascii.eqb c "013"%char.

(** [for si < len(src) && (src[si] == '\n' || src[si] == '\r') { si++ }] *)
Fixpoint skipNewlines (src : list ascii) (si : N) : list ascii * N :=
  match src with
  | c :: src' => if isNewline c then skipNewlines src' (si + 1) else (src, si)
  | [] => (src, si)
  end.

(** The tail of [decodeQuantum]: [dlen] six-bit values in [dbuf] are
    packed into [val] and the first [dlen - 1] bytes of it are written. *)
Definition quantum (dbuf : list N) : bytes :=
  let d i := nth i dbuf 0 in
  let val := N.lor (N.lor (N.lor (N.shiftl (d 0%nat) 18) (N.shiftl (d 1%nat) 12))
                          (N.shiftl (d 2%nat) 6)) (d 3%nat) in
  take (length dbuf - 1)
    [ascii_of_N (N.shiftr val 16); ascii_of_N (N.shiftr val 8); ascii_of_N val].

Definition prepend (bs : bytes) (r : bytes + error) : bytes + error :=
  match r with
  | inl rest => inl (bs ++ rest)
  | inr e => inr e
  end.

(** [Decode]: the loop over [decodeQuantum].  [src] is the input from
    offset [si] on, [dbuf] holds the values read so far in the current
    quantum ([j = length dbuf]). *)
Fixpoint decode (src : list ascii) (si : N) (dbuf : list N) : bytes + error :=
  match src with
  | [] =>
      match dbuf with
      | [] => inl []
      | _ => inr (Base64CorruptInputError (si - N.of_nat (length dbuf)))
      end
  | c :: src' =>
      match decodeMap c with
      | Some out =>
          if (length dbuf =? 3)%nat
          then prepend (quantum (dbuf ++ [out])) (decode src' (si + 1) [])
          else decode src' (si + 1) (dbuf ++ [out])
      | None =>
          if isNewline c then decode src' (si + 1) dbuf
          else if negb (Ascii.eqb c padChar) then inr (Base64CorruptInputError si)
          else
            match length dbuf with
            | 0%nat | 1%nat => inr (Base64CorruptInputError si)
            | 2%nat =>
                let '(src2, si2) := skipNewlines src' (si + 1) in
                match src2 with
                | [] => inr (Base64CorruptInputError si2)
                | c2 :: src3 =>
                    if negb (Ascii.eqb c2 padChar)
                    then inr (Base64CorruptInputError (si2 - 1))
                    else
                      let '(src4, si4) := skipNewlines src3 (si2 + 1) in
                      match src4 with
                      | [] => inl (quantum dbuf)
                      | _ => inr (Base64CorruptInputError si4)
                      end
                end
            | _ =>
                let '(src4, si4) := skipNewlines src' (si + 1) in
                match src4 with
                | [] => inl (quantum dbuf)
                | _ => inr (Base64CorruptInputError si4)
                end
            end
      end
  end.

Definition DecodeString (s : string) : bytes + error :=
  decode (list_ascii_of_string s) 0 [].

End base64.

(** ** Package [regexp]: leftmost-first matching

    The syntax covers the operators that occur in [authRegex].  Matching
    is by backtracking in the order Go's [regexp] guarantees for its
    non-POSIX syntax: the leftmost start position wins and, at that
    position, a lazy star prefers the shortest repetition that lets the
    rest of the pattern match.  Capture groups are numbered in the order
    they close, which for patterns without nested groups is the order
    they open. *)

Module regexp.

Inductive Regexp : Type :=
  | Literal (l : string)
  | LazyStar (p : ascii -> bool)
  | Repeat (p : ascii -> bool) (n : nat)
  | Concat (r1 r2 : Regexp)
  | Capture (r : Regexp).

(** A continuation receives the rest of the input and the groups
    captured so far. *)
Definition Cont : Type := string -> list string -> option (list string).

(** [x*?] for a one-character class [x]: stop as early as the
    continuation allows. *)
Fixpoint lazyStar (p : ascii -> bool) (s : string) (caps : list string)
    (k : Cont) : option (list string) :=
  match k s caps with
  | Some m => Some m
  | None =>
      match s with
      | String c s' => if p c then lazyStar p s' caps k else None
      | EmptyString => None
      end
  end.

(** [x{n}] *)
Fixpoint repeatN (p : ascii -> bool) (n : nat) (s : string) : option string :=
  match n with
  | O => Some s
  | S n' =>
      match s with
      | String c s' => if p c then repeatN p n' s' else None
      | EmptyString => None
      end
  end.

Fixpoint run (r : Regexp) (s : string) (caps : list string) (k : Cont)
    : option (list string) :=
  match r with
  | Literal l =>
      match stripPrefix l s with
      | Some s' => k s' caps
      | None => None
      end
  | LazyStar p => lazyStar p s caps k
  | Repeat p n =>
      match repeatN p n s with
      | Some s' => k s' caps
      | None => None
      end
  | Concat r1 r2 => run r1 s caps (fun s' caps' => run r2 s' caps' k)
  | Capture r1 => run r1 s caps (fun s' caps' => k s' (caps' ++ [consumed s s']))
  end.

(** A match that starts at the first character of [s]: the whole match
    followed by the groups. *)
Definition matchHere (r : Regexp) (s : string) : option (list string) :=
  run r s [] (fun s' caps => Some (consumed s s' :: caps)).

(** The unanchored search: start positions are tried from left to right. *)
Fixpoint search (r : Regexp) (s : string) : option (list string) :=
  match matchHere r s with
  | Some m => Some m
  | None =>
      match s with
      | String _ s' => search r s'
      | EmptyString => None
      end
  end.

(** [re.MatchString(s)] reports whether [s] contains any match. *)
Definition MatchString (r : Regexp) (s : string) : bool :=
  match search r s with
  | Some _ => true
  | None => false
  end.

(** [re.FindStringSubmatch(s)]: the leftmost match and its groups, [nil]
    when there is none. *)
Definition FindStringSubmatch (r : Regexp) (s : string) : list string :=
  match search r s with
  | Some m => m
  | None => []
  end.

End regexp.

(** ** Package [net/http]: [Header]

    A header is a map from canonical field names to value lists; [Get]
    and [Set] canonicalise the name they are given
    ([textproto.CanonicalMIMEHeaderKey]). *)

Module http.

Definition isTokenPunct (c : ascii) : bool :=
  existsb (Ascii.eqb c) (list_ascii_of_string "!#$%&'*+-.^_`|~").

Definition validHeaderFieldByte (c : ascii) : bool :=
  inRange "a" "z" c || inRange "A" "Z" c || inRange "0" "9" c || isTokenPunct c.

Definition toLower : N := 32.

(** First letter and every letter after a dash in upper case, all other
    letters in lower case. *)
Fixpoint canonicalize (upper : bool) (s : string) : string :=
  match s with
  | EmptyString => EmptyString
  | String c s' =>
      let c' :=
        if upper && inRange "a" "z" c then ascii_of_N (N_of_ascii c - toLower)
        else if negb upper && inRange "A" "Z" c then ascii_of_N (N_of_ascii c + toLower)
        else c in
      String c' (canonicalize (Ascii.eqb c' "-") s')
  end.

(** A name with a byte that is not a token character is left alone. *)
Definition CanonicalMIMEHeaderKey (s : string) : string :=
  if allChars validHeaderFieldByte s then canonicalize true s else s.

Abbreviation Header := (gmap string (list string)).

Definition Get (h : Header) (key : string) : string :=
  match h !! CanonicalMIMEHeaderKey key with
  | Some (v :: _) => v
  | _ => ""
  end.

Definition Set_ (h : Header) (key value : string) : Header :=
  <[CanonicalMIMEHeaderKey key := [value]]> h.

End http.

(** ** Package [lntypes]: [Preimage]

    A preimage is a [[32]byte]; it is carried as a byte list, and
    [MakePreimage] is the only way the program builds one. *)

Module lntypes.

Definition PreimageSize : nat := 32.

Abbreviation Preimage := (list ascii) (only parsing).

Definition MakePreimage (newPreimage : bytes) : Preimage + error :=
  let nhlen := length newPreimage in
  if negb (nhlen =? PreimageSize)%nat
  then inr (Errorf "invalid preimage length of %v, want %v"
              [VInt (N.of_nat nhlen); VInt (N.of_nat PreimageSize)])
  else inl newPreimage.

Definition MakePreimageFromStr (newPreimage : string) : Preimage + error :=
  if negb (String.length newPreimage =? PreimageSize * 2)%nat
  then inr (Errorf "invalid preimage string length of %v, want %v"
              [VInt (N.of_nat (String.length newPreimage));
               VInt (N.of_nat (PreimageSize * 2))])
  else
    match hex.DecodeString newPreimage with
    | inr err => inr err
    | inl preimage => MakePreimage preimage
    end.

(** [p.String()] *)
Definition String_ (p : Preimage) : string := hex.EncodeToString p.

End lntypes.

(** ** Package [fmt]: [Sprintf] for formats whose only verb is [%s] *)

Fixpoint Sprintf (format : string) (args : list string) : string :=
  match format with
  | EmptyString => EmptyString
  | String c rest =>
      match rest with
      | String d rest' =>
          if Ascii.eqb c "%" && Ascii.eqb d "s" then
            match args with
            | a :: args' => a +:+ Sprintf rest' args'
            | [] => "%!s(MISSING)" +:+ Sprintf rest' []
            end
          else String c (Sprintf rest args)
      | EmptyString => String c EmptyString
      end
  end.

(** ** Imported packages

    [lsat] (service descriptors), [gopkg.in/macaroon.v2] and
    [kirin/macaroons] (macaroons and caveat extraction), [mint]
    (verification parameters) and the [Minter] interface of this package
    are not part of the embedded file; the authenticator is stated over
    their signatures. *)

Module lsat.

(** [type ServiceTier uint8], [BaseTier ServiceTier = iota] *)
Definition ServiceTier : Type := N.
Definition BaseTier : ServiceTier := 0.

Record Service : Type := mkService {
  Name : string;
  Tier : ServiceTier
}.

End lsat.

(** [MarshalBinary] returns both a byte slice and an error, as in Go: the
    challenge path reads the slice even when the error is set.
    [UnmarshalBinary] is only ever called on a freshly allocated
    macaroon, so it is a function from the bytes to the macaroon it
    fills in.  [CondPreimage] and [ExtractCaveat] belong to
    [kirin/macaroons]. *)
Class MacaroonPkg : Type := {
  Macaroon : Type;
  MarshalBinary : Macaroon -> bytes * option error;
  UnmarshalBinary : bytes -> Macaroon + error;
  CondPreimage : string;
  ExtractCaveat : Macaroon -> string -> string + error
}.

(** Package [context]: the only context the program builds is
    [context.Background()]. *)
Module context.

Inductive t : Type := Background.

End context.

Module mint.

Record VerificationParams `{MacaroonPkg} : Type := mkVerificationParams {
  Macaroon_ : Macaroon;
  Preimage : lntypes.Preimage;
  TargetService : string
}.

End mint.

(** The [Minter] interface.  A minter has state of its own (root keys,
    invoices); [st] is that state and every call threads it. *)
Record Minter (st : Type) `{MacaroonPkg} : Type := mkMinter {
  MintLSAT : context.t -> lsat.Service -> st -> (Macaroon * string + error) * st;
  VerifyLSAT : context.t -> mint.VerificationParams -> st -> option error * st
}.
Arguments MintLSAT {st _} _ _ _ _.
Arguments VerifyLSAT {st _} _ _ _ _.

(** ** The store

    [http.Header] is a reference to a map: two names for one header see
    each other's writes.  Headers therefore live in a heap and the
    program passes their addresses.  A computation also carries the
    minter's state and the lines logged so far.  It yields [None] when
    the Go program would panic on a pointer that refers to no header. *)

Definition loc : Type := positive.

Record World (st : Type) : Type := mkWorld {
  heap : gmap loc http.Header;
  minterState : st;
  logs : list LogEntry
}.
Arguments mkWorld {st} _ _ _.
Arguments heap {st} _.
Arguments minterState {st} _.
Arguments logs {st} _.

Definition M (st A : Type) : Type := World st -> option (A * World st).

Definition ret {st A : Type} (a : A) : M st A := fun w => Some (a, w).

Definition bind {st A B : Type} (m : M st A) (k : A -> M st B) : M st B :=
  fun w =>
    match m w with
    | Some (a, w') => k a w'
    | None => None
    end.

Notation "x <- c1 ;; c2" := (bind c1 (fun x => c2))
  (at level 100, c1 at next level, right associativity).
Notation "c1 ;; c2" := (bind c1 (fun _ => c2))
  (at level 100, right associativity).

(** [*header] *)
Definition load {st : Type} (l : loc) : M st http.Header :=
  fun w =>
    match heap w !! l with
    | Some h => Some (h, w)
    | None => None
    end.

(** [header.Set(key, value)] through the reference [l] *)
Definition headerSet {st : Type} (l : loc) (key value : string) : M st unit :=
  fun w =>
    match heap w !! l with
    | Some h =>
        Some (tt, mkWorld (<[l := http.Set_ h key value]> (heap w))
                          (minterState w) (logs w))
    | None => None
    end.

(** Package-level logger [log]: a line is appended to the log. *)
Module log.

Definition logf {st : Type} (lvl : Level) (format : string) (args : list value)
    : M st unit :=
  fun w => Some (tt, mkWorld (heap w) (minterState w)
                             (logs w ++ [mkLog lvl format args])).

Definition Debugf {st : Type} := @logf st LevelDebug.
Definition Errorf {st : Type} := @logf st LevelError.

End log.

(** A call into the minter acts on the minter's state only. *)
Definition callMinter {st A : Type} (f : st -> A * st) : M st A :=
  fun w =>
    let '(a, s') := f (minterState w) in
    Some (a, mkWorld (heap w) s' (logs w)).

(** ** Package [auth]: the authenticator *)

(** HeaderAuthorization is the HTTP header field name that is used to
    send the LSAT by REST clients. *)
Definition HeaderAuthorization : string := "Authorization".

(** HeaderMacaroonMD is the HTTP header field name that is used to send
    the LSAT by certain REST and gRPC clients. *)
Definition HeaderMacaroonMD : string := "Grpc-Metadata-Macaroon".

(** HeaderMacaroon is the HTTP header field name that is used to send the
    LSAT by our own gRPC clients. *)
Definition HeaderMacaroon : string := "Macaroon".

(** [.] matches every character but the newline. *)
Definition anyCharNotNL (c : ascii) : bool := negb (Ascii.eqb c "010").

(** [[a-f0-9]] *)
Definition lowerHex (c : ascii) : bool := inRange "a" "f" c || inRange "0" "9" c.

(** [regexp.MustCompile("LSAT (.*?):([a-f0-9]{64})")] *)
Definition authRegex : regexp.Regexp :=
  regexp.Concat (regexp.Literal "LSAT ")
    (regexp.Concat (regexp.Capture (regexp.LazyStar anyCharNotNL))
       (regexp.Concat (regexp.Literal ":")
          (regexp.Capture (regexp.Repeat lowerHex 64)))).

Definition authFormat : string := "LSAT %s:%s".

Definition opWildcard : string := "*".

Section Authenticator.

Context {st : Type} `{MacaroonPkg}.

Record LsatAuthenticator : Type := mkLsatAuthenticator {
  minter : Minter st
}.

Definition NewLsatAuthenticator (minter : Minter st) : LsatAuthenticator :=
  mkLsatAuthenticator minter.

(** FromHeader tries to extract authentication information from HTTP
    headers.  The result is [inl (mac, preimage)] for a nil error and
    [inr err] otherwise.  The [switch] either returns ([inl]) or leaves
    the chosen field's value in [authHeader] ([inr]). *)
Definition FromHeader (header : loc) : M st (Macaroon * lntypes.Preimage + error) :=
  h <- load header ;;
  sw <-
    (if negb (String.eqb (http.Get h HeaderAuthorization) "") then
       let authHeader := http.Get h HeaderAuthorization in
       log.Debugf "Trying to authorize with header value [%s]." [VStr authHeader] ;;
       if negb (regexp.MatchString authRegex authHeader) then
         ret (inl (inr (Errorf "invalid auth header format: %s" [VStr authHeader])))
       else
         let matches := regexp.FindStringSubmatch authRegex authHeader in
         if negb (length matches =? 3)%nat then
           ret (inl (inr (Errorf "invalid auth header format: %s" [VStr authHeader])))
         else
           let macBase64 := nth 1 matches "" in
           let preimageHex := nth 2 matches "" in
           match base64.DecodeString macBase64 with
           | inr err =>
               ret (inl (inr (Errorf "base64 decode of macaroon failed: %v" [VErr err])))
           | inl macBytes =>
               match UnmarshalBinary macBytes with
               | inr err =>
                   ret (inl (inr (Errorf "unable to unmarshal macaroon: %v" [VErr err])))
               | inl mac =>
                   match lntypes.MakePreimageFromStr preimageHex with
                   | inr err =>
                       ret (inl (inr (Errorf "hex decode of preimage failed: %v"
                                        [VErr err])))
                   | inl preimage => ret (inl (inl (mac, preimage)))
                   end
               end
           end
     else if negb (String.eqb (http.Get h HeaderMacaroonMD) "") then
       ret (inr (http.Get h HeaderMacaroonMD))
     else if negb (String.eqb (http.Get h HeaderMacaroon) "") then
       ret (inr (http.Get h HeaderMacaroon))
     else
       ret (inl (inr (Errorf "no auth header provided" [])))) ;;
  match sw with
  | inl result => ret result
  | inr authHeader =>
      match hex.DecodeString authHeader with
      | inr err => ret (inr (Errorf "hex decode of macaroon failed: %v" [VErr err]))
      | inl macBytes =>
          match UnmarshalBinary macBytes with
          | inr err => ret (inr (Errorf "unable to unmarshal macaroon: %v" [VErr err]))
          | inl mac =>
              match ExtractCaveat mac CondPreimage with
              | inr err =>
                  ret (inr (Errorf "unable to extract preimage from macaroon: %v"
                              [VErr err]))
              | inl preimageHex =>
                  match lntypes.MakePreimageFromStr preimageHex with
                  | inr err =>
                      ret (inr (Errorf "hex decode of preimage failed: %v" [VErr err]))
                  | inl preimage => ret (inl (mac, preimage))
                  end
              end
          end
      end
  end.

(** SetHeader sets the provided authentication elements as the
    default/standard HTTP header for the LSAT protocol. *)
Definition SetHeader (header : loc) (mac : Macaroon) (preimage : lntypes.Preimage)
    : M st (option error) :=
  let '(macBytes, err) := MarshalBinary mac in
  match err with
  | Some e => ret (Some e)
  | None =>
      let value := Sprintf authFormat
                     [base64.EncodeToString macBytes; lntypes.String_ preimage] in
      headerSet header HeaderAuthorization value ;;
      ret None
  end.

(** Accept returns whether or not the header successfully authenticates
    the user to a given backend service. *)
Definition Accept (l : LsatAuthenticator) (header : loc) (serviceName : string)
    : M st bool :=
  r <- FromHeader header ;;
  match r with
  | inr err =>
      log.Debugf "Deny: %v" [VErr err] ;;
      ret false
  | inl (mac, preimage) =>
      let verificationParams :=
        mint.mkVerificationParams _ mac preimage serviceName in
      err <- callMinter (VerifyLSAT (minter l) context.Background verificationParams) ;;
      match err with
      | Some e =>
          log.Debugf "Deny: LSAT validation failed: %v" [VErr e] ;;
          ret false
      | None => ret true
      end
  end.

(** The request as the challenge path sees it: the reference held in
    its [Header] field. *)
Record Request : Type := mkRequest {
  Header : loc
}.

(** FreshChallengeHeader returns a header containing a challenge for
    the user to complete.  The result is the pair
    [(http.Header, error)]; [None] is [nil]. *)
Definition FreshChallengeHeader (l : LsatAuthenticator) (r : Request)
    (serviceName : string) : M st (option loc * option error) :=
  let service := lsat.mkService serviceName lsat.BaseTier in
  minted <- callMinter (MintLSAT (minter l) context.Background service) ;;
  match minted with
  | inr err =>
      log.Errorf "Error minting LSAT: %v" [VErr err] ;;
      ret (None, Some err)
  | inl (mac, paymentRequest) =>
      let '(macBytes, err) := MarshalBinary mac in
      match err with
      | Some e => log.Errorf "Error serializing LSAT: %v" [VErr e]
      | None => ret tt
      end ;;
      let str := Sprintf "LSAT macaroon='%s' invoice='%s'"
                   [base64.EncodeToString macBytes; paymentRequest] in
      let header := Header r in
      headerSet header "WWW-Authenticate" str ;;
      log.Debugf "Created new challenge header: [%s]" [VStr str] ;;
      ret (Some header, None)
  end.

End Authenticator.

Arguments LsatAuthenticator st {_}.

(** ** Vocabulary of the statements *)

Section Decoders.

Context `{MacaroonPkg}.

(** What the first case of the switch in [FromHeader] returns, as a
    function of the value of the [Authorization] field. *)
Definition decodeAuthorization (authHeader : string) : Macaroon * bytes + error :=
  match regexp.search authRegex authHeader with
  | None => inr (Errorf "invalid auth header format: %s" [VStr authHeader])
  | Some matches =>
      match base64.DecodeString (nth 1 matches "") with
      | inr err => inr (Errorf "base64 decode of macaroon failed: %v" [VErr err])
      | inl macBytes =>
          match UnmarshalBinary macBytes with
          | inr err => inr (Errorf "unable to unmarshal macaroon: %v" [VErr err])
          | inl mac =>
              match lntypes.MakePreimageFromStr (nth 2 matches "") with
              | inr err => inr (Errorf "hex decode of preimage failed: %v" [VErr err])
              | inl preimage => inl (mac, preimage)
              end
          end
      end
  end.

(** What [FromHeader] returns after the switch, as a function of the
    value of the field the second or third case selected. *)
Definition decodeMacaroonField (authHeader : string) : Macaroon * bytes + error :=
  match hex.DecodeString authHeader with
  | inr err => inr (Errorf "hex decode of macaroon failed: %v" [VErr err])
  | inl macBytes =>
      match UnmarshalBinary macBytes with
      | inr err => inr (Errorf "unable to unmarshal macaroon: %v" [VErr err])
      | inl mac =>
          match ExtractCaveat mac CondPreimage with
          | inr err =>
              inr (Errorf "unable to extract preimage from macaroon: %v" [VErr err])
          | inl preimageHex =>
              match lntypes.MakePreimageFromStr preimageHex with
              | inr err => inr (Errorf "hex decode of preimage failed: %v" [VErr err])
              | inl preimage => inl (mac, preimage)
              end
          end
      end
  end.

End Decoders.

(** The world after [FromHeader] has logged the [Authorization] value. *)
Definition logged {st : Type} (w : World st) (authHeader : string) : World st :=
  mkWorld (heap w) (minterState w)
    (logs w ++ [mkLog LevelDebug "Trying to authorize with header value [%s]."
                  [VStr authHeader]]).

(** The error of the first case for a value the pattern does not match. *)
Definition formatError (v : string) : error :=
  Errorf "invalid auth header format: %s" [VStr v].

(** Exactly 64 lower-case hexadecimal digits. *)
Definition hex64 (p : string) : Prop :=
  String.length p = 64%nat /\ allChars lowerHex p = true.

(** [v] starts with a credential: [LSAT m:p] followed by anything. *)
Definition credentialAt (m p post v : string) : Prop :=
  v = "LSAT " +:+ m +:+ ":" +:+ p +:+ post /\
  allChars anyCharNotNL m = true /\ hex64 p.

(** [v] contains a credential: [LSAT m:p] with anything before and
    after it. *)
Definition containsCredential (v : string) : Prop :=
  exists pre m p post,
    v = pre +:+ "LSAT " +:+ m +:+ ":" +:+ p +:+ post /\
    allChars anyCharNotNL m = true /\ hex64 p.

(** [v] is a credential and nothing else: [LSAT m:p]. *)
Definition exactCredential (v : string) : Prop :=
  exists m p, v = "LSAT " +:+ m +:+ ":" +:+ p /\ hex64 p.

(** Characters the base64 encoder can emit. *)
Definition base64Char (c : ascii) : bool :=
  match base64.decodeMap c with
  | Some _ => true
  | None => Ascii.eqb c base64.padChar
  end.

(** What follows the lazy group in [authRegex], as a continuation: the
    colon and the 64 hexadecimal digits.  [s0] is the input at the
    start of the match and [s1] the input at the start of the first
    group. *)
Definition authTail (s0 s1 : string) : regexp.Cont :=
  fun s' caps' =>
    match stripPrefix ":" s' with
    | Some s2 =>
        match regexp.repeatN lowerHex 64 s2 with
        | Some s3 => Some (consumed s0 s3 :: (caps' ++ [consumed s1 s']) ++ [consumed s2 s3])
        | None => None
        end
    | None => None
    end.

(** ** Test doubles

    An in-memory macaroon package and minter, in the role the fakes of a
    Go test play: they give the examples below something to run on.  The
    fake macaroon has a version byte and a body; only versions 1 and 2
    serialise, as in [macaroon.v2].  Its one caveat is the body, read as
    [condition=value]. *)

Module fake.

Record macaroon : Type := mkMacaroon {
  version : N;
  body : string
}.

Definition knownVersion (v : N) : bool := (v =? 1) || (v =? 2).

Definition marshal (m : macaroon) : bytes * option error :=
  if knownVersion (version m)
  then (ascii_of_N (version m) :: list_ascii_of_string (body m), None)
  else ([], Some (PackageError "macaroon" "bad macaroon version")).

Definition unmarshal (data : bytes) : macaroon + error :=
  match data with
  | v :: rest =>
      if knownVersion (N_of_ascii v)
      then inl (mkMacaroon (N_of_ascii v) (string_of_list_ascii rest))
      else inr (PackageError "macaroon" "bad macaroon version")
  | [] => inr (PackageError "macaroon" "empty macaroon data")
  end.

Definition extractCaveat (m : macaroon) (cond : string) : string + error :=
  match stripPrefix (cond +:+ "=") (body m) with
  | Some v => inl v
  | None => inr (PackageError "macaroons" "caveat not found")
  end.

#[export] Instance pkg : MacaroonPkg := {|
  Macaroon := macaroon;
  MarshalBinary := marshal;
  UnmarshalBinary := unmarshal;
  CondPreimage := "preimage";
  ExtractCaveat := extractCaveat
|}.

(** The fake minter counts its calls: [(mints, verifications)].  It
    refuses to mint for the empty service name, mints a macaroon that
    does not serialise for the service ["broken"], and verifies a
    credential iff it is presented for the service ["svc"]. *)
Definition calls : Type := (nat * nat)%type.

Definition mintLSAT (_ : context.t) (service : lsat.Service) (s : calls)
    : (macaroon * string + error) * calls :=
  let s' := (S (fst s), snd s) in
  if String.eqb (lsat.Name service) "" then
    (inr (PackageError "mint" "no service"), s')
  else if String.eqb (lsat.Name service) "broken" then
    (inl (mkMacaroon 9 (lsat.Name service), "lnbc1broken"), s')
  else
    (inl (mkMacaroon 2 (lsat.Name service), "lnbc1invoice"), s').

Definition verifyLSAT (_ : context.t) (p : mint.VerificationParams) (s : calls)
    : option error * calls :=
  let s' := (fst s, S (snd s)) in
  if String.eqb (mint.TargetService p) "svc" then (None, s')
  else (Some (PackageError "mint" "not authorized"), s').

Definition theMinter : Minter calls := mkMinter calls pkg mintLSAT verifyLSAT.

Definition auth : LsatAuthenticator calls := NewLsatAuthenticator theMinter.

Definition zeros64 : string :=
  "0000000000000000000000000000000000000000000000000000000000000000".

Definition preimage0 : bytes := repeat "000"%char 32.

(** A macaroon with a preimage caveat, one without, and one whose
    version does not serialise. *)
Definition macPaid : macaroon := mkMacaroon 2 ("preimage=" +:+ zeros64).
Definition macPlain : macaroon := mkMacaroon 2 "ab".
Definition macBroken : macaroon := mkMacaroon 9 "ab".

(** One header at address 1. *)
Definition world (h : gmap string (list string)) : World calls :=
  mkWorld {[ 1%positive := h ]} (0%nat, 0%nat) [].

End fake.

(** * Proofs *)

(** ** Facts about strings *)

Lemma append_cons (c : ascii) (s1 s2 : string) :
  String c s1 +:+ s2 = String c (s1 +:+ s2).
Proof. reflexivity. Qed.

Lemma append_nil_l (s : string) : "" +:+ s = s.
Proof. reflexivity. Qed.

Lemma append_nil_r (s : string) : s +:+ "" = s.
Proof.
  induction s as [|c s IH]; [reflexivity |].
  now rewrite append_cons, IH.
Qed.

Lemma append_assoc (s1 s2 s3 : string) : (s1 +:+ s2) +:+ s3 = s1 +:+ (s2 +:+ s3).
Proof.
  induction s1 as [|c s1 IH]; [reflexivity |].
  now rewrite !append_cons, IH.
Qed.

Lemma length_append (s1 s2 : string) :
  String.length (s1 +:+ s2) = (String.length s1 + String.length s2)%nat.
Proof.
  induction s1 as [|c s1 IH]; [reflexivity |].
  rewrite append_cons. simpl. now rewrite IH.
Qed.

Lemma allChars_append (p : ascii -> bool) (s1 s2 : string) :
  allChars p (s1 +:+ s2) = allChars p s1 && allChars p s2.
Proof.
  induction s1 as [|c s1 IH]; [reflexivity |].
  rewrite append_cons. simpl. rewrite IH. now rewrite andb_assoc.
Qed.

Lemma substring_append_l (s1 s2 : string) :
  substring 0 (String.length s1) (s1 +:+ s2) = s1.
Proof.
  induction s1 as [|c s1 IH]; [now destruct s2 |].
  rewrite append_cons. simpl. now rewrite IH.
Qed.

Lemma consumed_append (s1 s2 : string) : consumed (s1 +:+ s2) s2 = s1.
Proof.
  unfold consumed. rewrite length_append.
  replace (String.length s1 + String.length s2 - String.length s2)%nat
    with (String.length s1) by lia.
  apply substring_append_l.
Qed.

Lemma stripPrefix_append (p s : string) : stripPrefix p (p +:+ s) = Some s.
Proof.
  induction p as [|a p IH]; [reflexivity |].
  rewrite append_cons. simpl. now rewrite Ascii.eqb_refl.
Qed.

Lemma stripPrefix_Some (p s s' : string) : stripPrefix p s = Some s' -> s = p +:+ s'.
Proof.
  revert s. induction p as [|a p IH]; intros s Hs; simpl in *.
  - now inversion Hs.
  - destruct s as [|b s]; [discriminate |].
    destruct (Ascii.eqb_spec a b) as [->|]; [|discriminate].
    now rewrite (IH _ Hs).
Qed.

(** ** Bit-level facts *)

Lemma lor_disjoint (x y k : N) : x mod 2 ^ k = 0 -> y < 2 ^ k -> N.lor x y = x + y.
Proof.
  intros Hx Hy.
  assert (Hland : N.land x y = 0).
  { apply N.bits_inj. intros n. rewrite N.land_spec, N.bits_0.
    destruct (N.lt_ge_cases n k) as [Hn | Hn].
    - rewrite <- (N.mod_pow2_bits_low x k n Hn), Hx, N.bits_0. reflexivity.
    - rewrite <- (N.mod_small y (2 ^ k) Hy), (N.mod_pow2_bits_high y k n Hn).
      apply andb_false_r. }
  rewrite (N.add_nocarry_lxor _ _ Hland).
  symmetry. now apply N.lxor_lor.
Qed.

Lemma N_of_ascii_of_N (n : N) : N_of_ascii (ascii_of_N n) = N.land n 255.
Proof.
  destruct n as [|p]; [reflexivity |].
  do 8 (try destruct p as [p|p|]); reflexivity.
Qed.

Lemma ascii_of_N_land (n : N) (b : ascii) : N.land n 255 = N_of_ascii b -> ascii_of_N n = b.
Proof.
  intros Hn. rewrite <- (ascii_N_embedding (ascii_of_N n)), N_of_ascii_of_N, Hn.
  apply ascii_N_embedding.
Qed.

(** ** [encoding/hex] round trip *)

Lemma hex_byte (v : ascii) :
  let hi := N.shiftr (N_of_ascii v) 4 in
  let lo := N.land (N_of_ascii v) 15 in
  hex.fromHexChar (hex.digit hi) = Some hi /\
  hex.fromHexChar (hex.digit lo) = Some lo /\
  ascii_of_N (N.lor (N.shiftl hi 4) lo) = v /\
  lowerHex (hex.digit hi) = true /\
  lowerHex (hex.digit lo) = true.
Proof. destruct v as [[] [] [] [] [] [] [] []]; vm_compute; auto. Qed.

Lemma hex_decode_encode (src : bytes) :
  hex.DecodeString (hex.EncodeToString src) = inl src.
Proof.
  induction src as [|v rest IH]; [reflexivity |].
  destruct (hex_byte v) as (Hhi & Hlo & Hv & _).
  cbn [hex.EncodeToString hex.DecodeString].
  rewrite Hhi, Hlo. fold hex.DecodeString. rewrite IH, Hv. reflexivity.
Qed.

Lemma hex_encode_length (src : bytes) :
  String.length (hex.EncodeToString src) = (2 * length src)%nat.
Proof. induction src as [|v rest IH]; simpl; [reflexivity | rewrite IH; lia]. Qed.

Lemma hex_encode_lowerHex (src : bytes) :
  allChars lowerHex (hex.EncodeToString src) = true.
Proof.
  induction src as [|v rest IH]; [reflexivity |].
  destruct (hex_byte v) as (_ & _ & _ & Hhi & Hlo).
  cbn [hex.EncodeToString allChars]. now rewrite Hhi, Hlo, IH.
Qed.

Lemma MakePreimageFromStr_String (p : bytes) :
  length p = lntypes.PreimageSize ->
  lntypes.MakePreimageFromStr (lntypes.String_ p) = inl p.
Proof.
  intros Hp. unfold lntypes.MakePreimageFromStr, lntypes.String_, lntypes.MakePreimage.
  rewrite hex_encode_length, hex_decode_encode, Hp.
  rewrite !Nat.eqb_refl. reflexivity.
Qed.

Lemma MakePreimageFromStr_inl (s : string) (p : bytes) :
  lntypes.MakePreimageFromStr s = inl p ->
  length p = lntypes.PreimageSize /\ hex.DecodeString s = inl p.
Proof.
  unfold lntypes.MakePreimageFromStr, lntypes.MakePreimage. intros Hm.
  destruct (String.length s =? _)%nat; [|discriminate]. simpl in Hm.
  destruct (hex.DecodeString s) as [bs|]; [|discriminate].
  destruct (Nat.eqb_spec (length bs) lntypes.PreimageSize); simpl in Hm; [|discriminate].
  inversion Hm; subst. auto.
Qed.

(** ** [encoding/base64] round trip *)

Lemma decodeMap_encode (i : N) : i < 64 -> base64.decodeMap (base64.encode i) = Some i.
Proof.
  intros Hi.
  assert (Hall : forallb (fun n : nat =>
            match base64.decodeMap (base64.encode (N.of_nat n)) with
            | Some j => j =? N.of_nat n
            | None => false
            end) (seq 0 64) = true) by (vm_compute; reflexivity).
  rewrite forallb_forall in Hall.
  specialize (Hall (N.to_nat i)). rewrite N2Nat.id in Hall.
  destruct (base64.decodeMap (base64.encode i)) as [j|].
  - f_equal. apply N.eqb_eq, Hall, in_seq. lia.
  - discriminate Hall. apply in_seq. lia.
Qed.

Lemma sextet_lt (v k : N) : N.land (N.shiftr v k) 63 < 64.
Proof.
  change 63 with (N.ones 6). rewrite N.land_ones.
  apply N.mod_lt. discriminate.
Qed.

Lemma pack3 (a b c : N) :
  a < 256 -> b < 256 -> c < 256 ->
  N.lor (N.lor (N.shiftl a 16) (N.shiftl b 8)) c = a * 65536 + b * 256 + c.
Proof.
  intros Ha Hb Hc. rewrite !N.shiftl_mul_pow2.
  rewrite (lor_disjoint (a * 2 ^ 16) (b * 2 ^ 8) 16).
  - rewrite (lor_disjoint _ c 8); [reflexivity | | exact Hc].
    change (2 ^ 16) with (256 * 2 ^ 8). 
    rewrite N.mul_assoc, <- N.mul_add_distr_r. apply N.Div0.mod_mul.
  - apply N.Div0.mod_mul.
  - change (2 ^ 16) with (256 * 2 ^ 8). change (2 ^ 8) with 256. lia.
Qed.

Lemma pack4 (d0 d1 d2 d3 : N) :
  d1 < 64 -> d2 < 64 -> d3 < 64 ->
  N.lor (N.lor (N.lor (N.shiftl d0 18) (N.shiftl d1 12)) (N.shiftl d2 6)) d3
  = d0 * 262144 + d1 * 4096 + d2 * 64 + d3.
Proof.
  intros H1 H2 H3. rewrite !N.shiftl_mul_pow2.
  rewrite (lor_disjoint (d0 * 2 ^ 18) (d1 * 2 ^ 12) 18).
  - rewrite (lor_disjoint _ (d2 * 2 ^ 6) 12).
    + rewrite (lor_disjoint _ d3 6); [reflexivity | | exact H3].
      change (2 ^ 18) with (4096 * 2 ^ 6). change (2 ^ 12) with (64 * 2 ^ 6).
      rewrite !N.mul_assoc, <- !N.mul_add_distr_r. apply N.Div0.mod_mul.
    + change (2 ^ 18) with (64 * 2 ^ 12).
      rewrite !N.mul_assoc, <- !N.mul_add_distr_r. apply N.Div0.mod_mul.
    + change (2 ^ 12) with 4096. change (2 ^ 6) with 64. lia.
  - apply N.Div0.mod_mul.
  - change (2 ^ 18) with 262144. change (2 ^ 12) with 4096. lia.
Qed.


Ltac div_lia := zify; Z.to_euclidean_division_equations; lia.

Ltac to_div :=
  rewrite ?N.shiftr_div_pow2;
  change 63 with (N.ones 6); change 255 with (N.ones 8);
  rewrite ?N.land_ones;
  change (2 ^ 6) with 64; change (2 ^ 8) with 256; change (2 ^ 12) with 4096;
  change (2 ^ 16) with 65536; change (2 ^ 18) with 262144.

Lemma land63_lt (v : N) : N.land v 63 < 64.
Proof. to_div. apply N.mod_lt. discriminate. Qed.

(** Three bytes survive the trip through four six-bit values. *)
Lemma quantum_full (a b c : ascii) :
  let val := N.lor (N.lor (N.shiftl (N_of_ascii a) 16) (N.shiftl (N_of_ascii b) 8))
                   (N_of_ascii c) in
  base64.quantum [N.land (N.shiftr val 18) 63; N.land (N.shiftr val 12) 63;
                  N.land (N.shiftr val 6) 63; N.land val 63] = [a; b; c].
Proof.
  intros val. subst val.
  pose proof (N_ascii_bounded a) as Ha. pose proof (N_ascii_bounded b) as Hb.
  pose proof (N_ascii_bounded c) as Hc.
  rewrite (pack3 _ _ _ Ha Hb Hc).
  unfold base64.quantum. cbn [nth length take Nat.sub].
  rewrite pack4 by apply land63_lt.
  repeat f_equal; apply ascii_of_N_land; to_div; div_lia.
Qed.

Lemma quantum_two (a b : ascii) :
  let val := N.lor (N.shiftl (N_of_ascii a) 16) (N.shiftl (N_of_ascii b) 8) in
  base64.quantum [N.land (N.shiftr val 18) 63; N.land (N.shiftr val 12) 63;
                  N.land (N.shiftr val 6) 63] = [a; b].
Proof.
  intros val. subst val.
  pose proof (N_ascii_bounded a) as Ha. pose proof (N_ascii_bounded b) as Hb.
  rewrite <- (N.lor_0_r (N.lor _ _)).
  rewrite (pack3 _ _ 0 Ha Hb) by lia.
  unfold base64.quantum. cbn [nth length take Nat.sub].
  rewrite pack4 by (try apply land63_lt; lia).
  repeat f_equal; apply ascii_of_N_land; to_div; div_lia.
Qed.

Lemma quantum_one (a : ascii) :
  let val := N.shiftl (N_of_ascii a) 16 in
  base64.quantum [N.land (N.shiftr val 18) 63; N.land (N.shiftr val 12) 63] = [a].
Proof.
  intros val. subst val.
  pose proof (N_ascii_bounded a) as Ha.
  unfold base64.quantum. cbn [nth length take Nat.sub].
  rewrite pack4 by (try apply land63_lt; lia).
  rewrite N.shiftl_mul_pow2.
  repeat f_equal; apply ascii_of_N_land; to_div; div_lia.
Qed.

Lemma list_ind3 {A : Type} (P : list A -> Prop) :
  P [] -> (forall a, P [a]) -> (forall a b, P [a; b]) ->
  (forall a b c l, P l -> P (a :: b :: c :: l)) ->
  forall l, P l.
Proof.
  intros H0 H1 H2 H3.
  fix IH 1. intros [|a [|b [|c l]]]; [exact H0 | apply H1 | apply H2 |].
  apply H3, IH.
Qed.

Lemma decode_value (c : ascii) (out : N) (src : list ascii) (si : N) (dbuf : list N) :
  base64.decodeMap c = Some out ->
  base64.decode (c :: src) si dbuf =
    if (length dbuf =? 3)%nat
    then base64.prepend (base64.quantum (dbuf ++ [out])) (base64.decode src (si + 1) [])
    else base64.decode src (si + 1) (dbuf ++ [out]).
Proof. intros Hc. cbn [base64.decode]. now rewrite Hc. Qed.

Lemma decode_pad_end (si : N) (d0 d1 d2 : N) :
  base64.decode [base64.padChar] si [d0; d1; d2] = inl (base64.quantum [d0; d1; d2]).
Proof. reflexivity. Qed.

Lemma decode_pad_pad_end (si : N) (d0 d1 : N) :
  base64.decode [base64.padChar; base64.padChar] si [d0; d1]
  = inl (base64.quantum [d0; d1]).
Proof. reflexivity. Qed.

Ltac decode_sextet :=
  first [ rewrite (decode_value _ _ _ _ _ (decodeMap_encode _ (sextet_lt _ _)))
        | rewrite (decode_value _ _ _ _ _ (decodeMap_encode _ (land63_lt _))) ];
  cbn [length Nat.eqb app].

Lemma base64_decode_at (src : bytes) (si : N) :
  base64.decode (list_ascii_of_string (base64.EncodeToString src)) si [] = inl src.
Proof.
  revert si. induction src as [|a|a b|a b c rest IH] using list_ind3; intros si.
  - reflexivity.
  - cbn [base64.EncodeToString list_ascii_of_string].
    do 2 decode_sextet.
    rewrite decode_pad_pad_end. f_equal. apply quantum_one.
  - cbn [base64.EncodeToString list_ascii_of_string].
    do 3 decode_sextet.
    rewrite decode_pad_end. f_equal. apply quantum_two.
  - cbn [base64.EncodeToString list_ascii_of_string].
    do 4 decode_sextet.
    rewrite IH, quantum_full. reflexivity.
Qed.

Lemma base64_decode_encode (src : bytes) :
  base64.DecodeString (base64.EncodeToString src) = inl src.
Proof. apply base64_decode_at. Qed.

Lemma encode_base64Char (i : N) : base64Char (base64.encode i) = true.
Proof.
  destruct (N.lt_ge_cases i 64) as [Hi | Hi].
  - unfold base64Char. now rewrite decodeMap_encode.
  - unfold base64.encode. rewrite nth_overflow; [reflexivity |].
    change (length (list_ascii_of_string base64.encodeStd)) with 64%nat. lia.
Qed.

Lemma base64_encode_chars (src : bytes) :
  allChars base64Char (base64.EncodeToString src) = true.
Proof.
  induction src as [|a|a b|a b c rest IH] using list_ind3;
    cbn [base64.EncodeToString allChars]; rewrite ?encode_base64Char, ?IH; reflexivity.
Qed.

Lemma base64Char_plain (c : ascii) :
  base64Char c = true -> anyCharNotNL c = true /\ Ascii.eqb ":" c = false.
Proof. destruct c as [[] [] [] [] [] [] [] []]; vm_compute; auto; discriminate. Qed.

(** ** The matcher on [authRegex] *)

Lemma repeatN_Some (p : ascii -> bool) (n : nat) (s s' : string) :
  regexp.repeatN p n s = Some s' ->
  exists x, s = x +:+ s' /\ String.length x = n /\ allChars p x = true.
Proof.
  revert s. induction n as [|n IH]; intros s Hr; simpl in Hr.
  - inversion Hr; subst. exists "". auto.
  - destruct s as [|c s]; [discriminate |].
    destruct (p c) eqn:Hc; [|discriminate].
    destruct (IH _ Hr) as (x & -> & Hlen & Hall).
    exists (String c x). simpl. rewrite Hc, Hall, Hlen. auto.
Qed.

Lemma repeatN_append (p : ascii -> bool) (x s' : string) :
  allChars p x = true -> regexp.repeatN p (String.length x) (x +:+ s') = Some s'.
Proof.
  induction x as [|c x IH]; intros Hall; [reflexivity |].
  simpl in Hall. apply andb_true_iff in Hall as [Hc Hx].
  rewrite append_cons. simpl. rewrite Hc. auto.
Qed.

Lemma lazyStar_sound (p : ascii -> bool) (s : string) (caps : list string)
    (k : regexp.Cont) (m : list string) :
  regexp.lazyStar p s caps k = Some m ->
  exists x s', s = x +:+ s' /\ allChars p x = true /\ k s' caps = Some m.
Proof.
  induction s as [|c s IH]; simpl; intros Hl.
  - destruct (k "" caps) eqn:Hk; [|discriminate].
    exists "", "". inversion Hl; subst. auto.
  - destruct (k (String c s) caps) eqn:Hk.
    + exists "", (String c s). inversion Hl; subst. auto.
    + destruct (p c) eqn:Hc; [|discriminate].
      destruct (IH Hl) as (x & s' & -> & Hall & Hk').
      exists (String c x), s'. simpl. rewrite Hc, Hall. auto.
Qed.

Lemma lazyStar_complete (p : ascii -> bool) (x s' : string) (caps : list string)
    (k : regexp.Cont) :
  allChars p x = true -> is_Some (k s' caps) ->
  is_Some (regexp.lazyStar p (x +:+ s') caps k).
Proof.
  induction x as [|c x IH]; intros Hall Hk.
  - rewrite append_nil_l. destruct Hk as [m Hk].
    destruct s'; simpl; rewrite Hk; eauto.
  - simpl in Hall. apply andb_true_iff in Hall as [Hc Hx].
    rewrite append_cons. simpl.
    destruct (k (String c (x +:+ s')) caps); [eauto |].
    rewrite Hc. auto.
Qed.

(** The lazy star stops at the first place where the continuation
    succeeds. *)
Lemma lazyStar_first (p : ascii -> bool) (x s' : string) (caps : list string)
    (k : regexp.Cont) (m : list string) :
  allChars p x = true ->
  (forall x1 c x2, x = x1 +:+ String c x2 -> k (String c x2 +:+ s') caps = None) ->
  k s' caps = Some m ->
  regexp.lazyStar p (x +:+ s') caps k = Some m.
Proof.
  induction x as [|c x IH]; intros Hall Hnone Hk.
  - rewrite append_nil_l. destruct s'; simpl; now rewrite Hk.
  - simpl in Hall. apply andb_true_iff in Hall as [Hc Hx].
    rewrite append_cons. simpl.
    rewrite <- append_cons, (Hnone "" c x eq_refl), Hc.
    apply IH; auto.
    intros x1 c' x2 ->. apply (Hnone (String c x1) c' x2). reflexivity.
Qed.

Lemma matchHere_authRegex (s : string) :
  regexp.matchHere authRegex s =
    match stripPrefix "LSAT " s with
    | Some s1 => regexp.lazyStar anyCharNotNL s1 [] (authTail s s1)
    | None => None
    end.
Proof. reflexivity. Qed.

Lemma credential_assoc (m p post : string) :
  "LSAT " +:+ m +:+ ":" +:+ p +:+ post = ("LSAT " +:+ m +:+ ":" +:+ p) +:+ post.
Proof. now rewrite !append_assoc. Qed.

Lemma authTail_Some (s0 s1 s' : string) (caps ms : list string) :
  authTail s0 s1 s' caps = Some ms ->
  exists p post, s' = ":" +:+ p +:+ post /\ hex64 p /\
    ms = consumed s0 post :: (caps ++ [consumed s1 s']) ++ [p].
Proof.
  unfold authTail. intros Ht.
  destruct (stripPrefix ":" s') as [s2|] eqn:Hs2; [|discriminate].
  destruct (regexp.repeatN lowerHex 64 s2) as [s3|] eqn:Hs3; [|discriminate].
  apply stripPrefix_Some in Hs2. apply repeatN_Some in Hs3 as (p & -> & Hlen & Hall).
  exists p, s3. rewrite consumed_append in Ht. inversion Ht; subst.
  repeat split; auto.
Qed.

Lemma authTail_credential (s0 s1 p post : string) (caps : list string) :
  hex64 p ->
  authTail s0 s1 (":" +:+ p +:+ post) caps
  = Some (consumed s0 post :: (caps ++ [consumed s1 (":" +:+ p +:+ post)]) ++ [p]).
Proof.
  intros [Hlen Hall]. unfold authTail.
  rewrite stripPrefix_append, <- Hlen, repeatN_append by exact Hall.
  now rewrite consumed_append.
Qed.

Lemma matchHere_sound (v : string) (ms : list string) :
  regexp.matchHere authRegex v = Some ms ->
  exists m p post, credentialAt m p post v /\ ms = ["LSAT " +:+ m +:+ ":" +:+ p; m; p].
Proof.
  rewrite matchHere_authRegex. intros Hm.
  destruct (stripPrefix "LSAT " v) as [s1|] eqn:Hs1; [|discriminate].
  apply stripPrefix_Some in Hs1.
  apply lazyStar_sound in Hm as (m & s' & -> & Hall & Ht).
  apply authTail_Some in Ht as (p & post & -> & Hp & ->).
  exists m, p, post. split; [split; auto |].
  rewrite consumed_append. subst v.
  now rewrite credential_assoc, consumed_append.
Qed.

Lemma matchHere_complete (m p post v : string) :
  credentialAt m p post v -> is_Some (regexp.matchHere authRegex v).
Proof.
  intros (-> & Hm & Hp). rewrite matchHere_authRegex, stripPrefix_append.
  apply lazyStar_complete; [exact Hm |].
  rewrite authTail_credential by exact Hp. eauto.
Qed.


Lemma search_unfold (r : regexp.Regexp) (s : string) :
  regexp.search r s =
    match regexp.matchHere r s with
    | Some m => Some m
    | None =>
        match s with
        | String _ s' => regexp.search r s'
        | EmptyString => None
        end
    end.
Proof. destruct s; reflexivity. Qed.

Lemma search_sound (v : string) (ms : list string) :
  regexp.search authRegex v = Some ms ->
  exists pre m p post,
    v = pre +:+ "LSAT " +:+ m +:+ ":" +:+ p +:+ post /\
    allChars anyCharNotNL m = true /\ hex64 p /\
    ms = ["LSAT " +:+ m +:+ ":" +:+ p; m; p].
Proof.
  induction v as [|c v IH]; rewrite search_unfold; intros Hs.
  - destruct (regexp.matchHere authRegex "") eqn:Hm; [|discriminate].
    inversion Hs; subst.
    apply matchHere_sound in Hm as (m & p & post & (Hv & Hm & Hp) & ->).
    exists "", m, p, post. auto.
  - destruct (regexp.matchHere authRegex (String c v)) eqn:Hm.
    + inversion Hs; subst.
      apply matchHere_sound in Hm as (m & p & post & (Hv & Hm & Hp) & ->).
      exists "", m, p, post. auto.
    + destruct (IH Hs) as (pre & m & p & post & -> & Hm' & Hp & ->).
      exists (String c pre), m, p, post. auto.
Qed.

Lemma search_complete (v : string) :
  containsCredential v -> is_Some (regexp.search authRegex v).
Proof.
  intros (pre & m & p & post & -> & Hm & Hp).
  induction pre as [|c pre IH]; rewrite search_unfold.
  - rewrite append_nil_l.
    destruct (matchHere_complete m p post _ (conj eq_refl (conj Hm Hp))) as [ms ->].
    eauto.
  - destruct (regexp.matchHere authRegex _); [eauto |].
    rewrite append_cons. exact IH.
Qed.

Lemma MatchString_authRegex (v : string) :
  regexp.MatchString authRegex v = true <-> containsCredential v.
Proof.
  unfold regexp.MatchString. split.
  - destruct (regexp.search authRegex v) as [ms|] eqn:Hs; [|discriminate].
    intros _. apply search_sound in Hs as (pre & m & p & post & ? & ? & ? & _).
    exists pre, m, p, post. auto.
  - intros Hc. destruct (search_complete v Hc) as [ms ->]. reflexivity.
Qed.

(** When the first segment is made of base64 characters, the match
    starts at the first character and the groups are the two segments. *)
Lemma search_exact_post (m p post : string) :
  allChars base64Char m = true -> hex64 p ->
  regexp.search authRegex ("LSAT " +:+ m +:+ ":" +:+ p +:+ post)
  = Some ["LSAT " +:+ m +:+ ":" +:+ p; m; p].
Proof.
  intros Hm Hp. rewrite search_unfold, matchHere_authRegex, stripPrefix_append.
  assert (Hnl : allChars anyCharNotNL m = true).
  { clear -Hm. induction m as [|c m IH]; [reflexivity |].
    simpl in *. apply andb_true_iff in Hm as [Hc Hm].
    now rewrite (proj1 (base64Char_plain c Hc)), IH. }
  rewrite (lazyStar_first _ m _ [] _ ["LSAT " +:+ m +:+ ":" +:+ p; m; p] Hnl).
  - reflexivity.
  - intros x1 c x2 ->. rewrite allChars_append in Hm.
    apply andb_true_iff in Hm as [_ Hm]. simpl in Hm.
    apply andb_true_iff in Hm as [Hc _].
    unfold authTail. rewrite append_cons. cbn [stripPrefix].
    now rewrite (proj2 (base64Char_plain c Hc)).
  - rewrite authTail_credential by exact Hp.
    rewrite consumed_append. simpl app.
    rewrite credential_assoc, consumed_append. reflexivity.
Qed.

(** On the string [SetHeader] writes, the match is the whole string. *)
Lemma search_exact (m p : string) :
  allChars base64Char m = true -> hex64 p ->
  regexp.search authRegex ("LSAT " +:+ m +:+ ":" +:+ p)
  = Some ["LSAT " +:+ m +:+ ":" +:+ p; m; p].
Proof.
  intros Hm Hp. rewrite <- (search_exact_post m p "" Hm Hp).
  now rewrite append_nil_r.
Qed.

Lemma Sprintf_authFormat (a b : string) :
  Sprintf authFormat [a; b] = "LSAT " +:+ a +:+ ":" +:+ b.
Proof.
  unfold authFormat. cbn [Sprintf Ascii.eqb Bool.eqb andb].
  now rewrite append_nil_r.
Qed.

Lemma Sprintf_challenge (a b : string) :
  Sprintf "LSAT macaroon='%s' invoice='%s'" [a; b]
  = "LSAT macaroon='" +:+ a +:+ "' invoice='" +:+ b +:+ "'".
Proof. cbn [Sprintf Ascii.eqb Bool.eqb andb]. reflexivity. Qed.

Lemma Get_Set_ (h : gmap string (list string)) (key value : string) :
  http.Get (http.Set_ h key value) key = value.
Proof. unfold http.Get, http.Set_. now rewrite lookup_insert_eq. Qed.

Ltac run :=
  unfold bind, ret, load, headerSet, log.Debugf, log.Errorf, log.logf, callMinter.

Section AuthenticatorFacts.

Context {st : Type} `{MacaroonPkg}.

Implicit Types (w : World st) (l : loc) (h : gmap string (list string)).

Lemma FromHeader_authorization w l h (v : string) :
  heap w !! l = Some h ->
  http.Get h HeaderAuthorization = v -> v <> "" ->
  FromHeader l w = Some (decodeAuthorization v, logged w v).
Proof.
  intros Hh Hv Hne. unfold FromHeader. run. rewrite Hh, Hv.
  destruct (String.eqb_spec v "") as [|_]; [contradiction |].
  cbn [negb]. unfold decodeAuthorization, regexp.MatchString, regexp.FindStringSubmatch.
  destruct (regexp.search authRegex v) as [ms|] eqn:Hs; [|reflexivity].
  apply search_sound in Hs as (pre & m & p & post & _ & _ & _ & ->).
  cbn [negb length Nat.eqb nth].
  destruct (base64.DecodeString m) as [macBytes|]; [|reflexivity].
  destruct (UnmarshalBinary macBytes) as [mac|]; [|reflexivity].
  destruct (lntypes.MakePreimageFromStr p); reflexivity.
Qed.

Lemma FromHeader_metadata w l h (v : string) :
  heap w !! l = Some h ->
  http.Get h HeaderAuthorization = "" ->
  http.Get h HeaderMacaroonMD = v -> v <> "" ->
  FromHeader l w = Some (decodeMacaroonField v, w).
Proof.
  intros Hh Ha Hv Hne. unfold FromHeader. run. rewrite Hh, Ha, Hv.
  destruct (String.eqb_spec v "") as [|_]; [contradiction |].
  cbn [negb String.eqb]. unfold decodeMacaroonField.
  destruct (hex.DecodeString v) as [macBytes|]; [|reflexivity].
  destruct (UnmarshalBinary macBytes) as [mac|]; [|reflexivity].
  destruct (ExtractCaveat mac CondPreimage) as [preimageHex|]; [|reflexivity].
  destruct (lntypes.MakePreimageFromStr preimageHex); reflexivity.
Qed.

Lemma FromHeader_macaroon w l h (v : string) :
  heap w !! l = Some h ->
  http.Get h HeaderAuthorization = "" ->
  http.Get h HeaderMacaroonMD = "" ->
  http.Get h HeaderMacaroon = v -> v <> "" ->
  FromHeader l w = Some (decodeMacaroonField v, w).
Proof.
  intros Hh Ha Hmd Hv Hne. unfold FromHeader. run. rewrite Hh, Ha, Hmd, Hv.
  destruct (String.eqb_spec v "") as [|_]; [contradiction |].
  cbn [negb String.eqb]. unfold decodeMacaroonField.
  destruct (hex.DecodeString v) as [macBytes|]; [|reflexivity].
  destruct (UnmarshalBinary macBytes) as [mac|]; [|reflexivity].
  destruct (ExtractCaveat mac CondPreimage) as [preimageHex|]; [|reflexivity].
  destruct (lntypes.MakePreimageFromStr preimageHex); reflexivity.
Qed.

Lemma FromHeader_none w l h :
  heap w !! l = Some h ->
  http.Get h HeaderAuthorization = "" ->
  http.Get h HeaderMacaroonMD = "" ->
  http.Get h HeaderMacaroon = "" ->
  FromHeader l w = Some (inr (Errorf "no auth header provided" []), w).
Proof.
  intros Hh Ha Hmd Hm. unfold FromHeader. run.
  rewrite Hh, Ha, Hmd, Hm. reflexivity.
Qed.


(** [FromHeader] returns for every header it can read, and leaves
    the headers and the minter alone. *)
Lemma FromHeader_total w l h :
  heap w !! l = Some h ->
  exists r w1, FromHeader l w = Some (r, w1) /\
    heap w1 = heap w /\ minterState w1 = minterState w.
Proof.
  intros Hh.
  destruct (String.eqb_spec (http.Get h HeaderAuthorization) "") as [Ha | Ha].
  - destruct (String.eqb_spec (http.Get h HeaderMacaroonMD) "") as [Hmd | Hmd].
    + destruct (String.eqb_spec (http.Get h HeaderMacaroon) "") as [Hm | Hm].
      * rewrite (FromHeader_none w l h Hh Ha Hmd Hm). eauto.
      * rewrite (FromHeader_macaroon w l h _ Hh Ha Hmd eq_refl Hm). eauto.
    + rewrite (FromHeader_metadata w l h _ Hh Ha eq_refl Hmd). eauto.
  - rewrite (FromHeader_authorization w l h _ Hh eq_refl Ha). eauto.
Qed.

Lemma Accept_denies_decode_failure (auth : LsatAuthenticator st) w l (svc : string)
    (err : error) w1 :
  FromHeader l w = Some (inr err, w1) ->
  Accept auth l svc w
  = Some (false, mkWorld (heap w1) (minterState w1)
                   (logs w1 ++ [mkLog LevelDebug "Deny: %v" [VErr err]])).
Proof. intros Hf. unfold Accept. run. rewrite Hf. reflexivity. Qed.

Lemma Accept_verifies (auth : LsatAuthenticator st) w l (svc : string)
    (mac : Macaroon) (pre : bytes) w1 :
  FromHeader l w = Some (inl (mac, pre), w1) ->
  exists w',
    Accept auth l svc w
    = Some (match fst (VerifyLSAT (minter auth) context.Background
                         (mint.mkVerificationParams _ mac pre svc) (minterState w1)) with
            | None => true
            | Some _ => false
            end, w') /\
    heap w' = heap w1 /\
    minterState w' = snd (VerifyLSAT (minter auth) context.Background
                            (mint.mkVerificationParams _ mac pre svc) (minterState w1)).
Proof.
  intros Hf. unfold Accept. run. rewrite Hf.
  destruct (VerifyLSAT _ _ _ _) as [[e|] s']; cbn [fst snd]; eauto.
Qed.

End AuthenticatorFacts.

Lemma hex_decode_length :
  forall (s : string) (bs : bytes),
    hex.DecodeString s = inl bs -> String.length s = (2 * length bs)%nat.
Proof.
  fix IH 1. intros [|a [|b rest]] bs Hd; cbn [hex.DecodeString] in Hd.
  - inversion Hd. reflexivity.
  - destruct (hex.fromHexChar a); discriminate.
  - destruct (hex.fromHexChar a); [|discriminate].
    destruct (hex.fromHexChar b); [|discriminate].
    destruct (hex.DecodeString rest) as [bs'|] eqn:Hr; [|discriminate].
    inversion Hd; subst. cbn [String.length length]. rewrite (IH rest bs' Hr). lia.
Qed.

Lemma MakePreimageFromStr_iff (s : string) (p : bytes) :
  lntypes.MakePreimageFromStr s = inl p <->
  hex.DecodeString s = inl p /\ length p = lntypes.PreimageSize.
Proof.
  split.
  - intros Hm. apply MakePreimageFromStr_inl in Hm. tauto.
  - intros [Hd Hp]. unfold lntypes.MakePreimageFromStr, lntypes.MakePreimage.
    rewrite (hex_decode_length _ _ Hd), Hd, Hp. reflexivity.
Qed.

Section Claims.

Context {st : Type} `{MacaroonPkg}.

Implicit Types (w : World st) (l : loc) (h : gmap string (list string)).
Implicit Types (auth : LsatAuthenticator st).




(** C3: [Accept] returns a boolean for every header it is handed: it
    does not fail and nothing but the boolean comes back.  The
    boolean is [true] exactly when [FromHeader] succeeds and
    [VerifyLSAT] on the bundled macaroon, preimage and service name
    returns nil; it is [false] when decoding fails and when
    verification returns an error. *)
Theorem Accept_returns_bool auth w l h (serviceName : string) :
  heap w !! l = Some h ->
  exists r w1 b w',
    FromHeader l w = Some (r, w1) /\
    Accept auth l serviceName w = Some (b, w') /\
    heap w' = heap w /\
    (b = true <->
       exists mac pre, r = inl (mac, pre) /\
         fst (VerifyLSAT (minter auth) context.Background
                (mint.mkVerificationParams _ mac pre serviceName) (minterState w))
         = None) /\
    ((exists err, r = inr err) -> b = false) /\
    (forall mac pre e, r = inl (mac, pre) ->
       fst (VerifyLSAT (minter auth) context.Background
              (mint.mkVerificationParams _ mac pre serviceName) (minterState w))
       = Some e -> b = false).
Proof.
  intros Hh.
  destruct (FromHeader_total w l h Hh) as (r & w1 & Hf & Hheap & Hst).
  exists r, w1. destruct r as [[mac pre] | err].
  - destruct (Accept_verifies auth w l serviceName mac pre w1 Hf)
      as (w' & Ha & Hheap' & _).
    rewrite Hst in Ha. eexists _, w'. split; [exact Hf |]. split; [exact Ha |].
    split; [congruence |].
    destruct (fst (VerifyLSAT _ _ _ _)) as [e|] eqn:Hv.
    + repeat split; try discriminate; auto.
      intros (mac' & pre' & Heq & Hnil). inversion Heq; subst. congruence.
    + repeat split; eauto.
      * intros [err Herr]. discriminate.
      * intros mac' pre' e Heq He. inversion Heq; subst. congruence.
  - rewrite (Accept_denies_decode_failure auth w l serviceName err w1 Hf).
    eexists _, _. split; [exact Hf |]. split; [reflexivity |].
    split; [exact Hheap |]. repeat split; try discriminate; auto.
    intros (mac & pre & Heq & _). discriminate.
Qed.

(** C4: round trip.  For a macaroon that serialises and deserialises
    back to itself and a 32-byte preimage, [SetHeader] followed by
    [FromHeader] on the same header yields the original pair. *)
Theorem SetHeader_FromHeader_roundtrip w l h (mac : Macaroon) (preimage macBytes : bytes) :
  heap w !! l = Some h ->
  MarshalBinary mac = (macBytes, None) ->
  UnmarshalBinary macBytes = inl mac ->
  length preimage = 32%nat ->
  exists w1 w2,
    SetHeader l mac preimage w = Some (None, w1) /\
    FromHeader l w1 = Some (inl (mac, preimage), w2).
Proof.
  intros Hh Hmar Hun Hlen.
  unfold SetHeader. rewrite Hmar. run. rewrite Hh.
  eexists _, _. split; [reflexivity |].
  erewrite FromHeader_authorization;
    [ | cbn [heap]; apply lookup_insert_eq | apply Get_Set_ | ].
  - f_equal. f_equal. rewrite Sprintf_authFormat. unfold decodeAuthorization.
    rewrite search_exact.
    + cbn [nth]. rewrite base64_decode_encode, Hun.
      now rewrite MakePreimageFromStr_String.
    + apply base64_encode_chars.
    + split; [|apply hex_encode_lowerHex].
      unfold lntypes.String_. rewrite hex_encode_length, Hlen. reflexivity.
  - rewrite Sprintf_authFormat. discriminate.
Qed.

(** C5: with an empty [Authorization] field and a non-empty
    [Grpc-Metadata-Macaroon] or [Macaroon] field, [FromHeader]
    succeeds exactly when that field hex-decodes to bytes that
    deserialise to a macaroon whose preimage caveat hex-decodes to 32
    bytes; these are the macaroon and preimage it returns.  When the
    caveat extraction reports that there is no such caveat,
    [FromHeader] fails with that error wrapped, and [Accept] denies
    with the minter never called. *)
Theorem FromHeader_macaroon_only w l h (v : string) :
  heap w !! l = Some h ->
  http.Get h HeaderAuthorization = "" ->
  (http.Get h HeaderMacaroonMD = v \/
   http.Get h HeaderMacaroonMD = "" /\ http.Get h HeaderMacaroon = v) ->
  v <> "" ->
  exists r, FromHeader l w = Some (r, w) /\
    (forall mac pre, r = inl (mac, pre) <->
       exists macBytes preimageHex,
         hex.DecodeString v = inl macBytes /\
         UnmarshalBinary macBytes = inl mac /\
         ExtractCaveat mac CondPreimage = inl preimageHex /\
         hex.DecodeString preimageHex = inl pre /\ length pre = 32%nat) /\
    (forall macBytes mac err,
       hex.DecodeString v = inl macBytes ->
       UnmarshalBinary macBytes = inl mac ->
       ExtractCaveat mac CondPreimage = inr err ->
       r = inr (Errorf "unable to extract preimage from macaroon: %v" [VErr err]) /\
       forall auth serviceName, exists w',
         Accept auth l serviceName w = Some (false, w') /\
         minterState w' = minterState w).
Proof.
  intros Hh Ha Hsel Hne. exists (decodeMacaroonField v).
  assert (Hf : FromHeader l w = Some (decodeMacaroonField v, w)).
  { destruct Hsel as [Hmd | [Hmd Hm]].
    - now apply FromHeader_metadata with h.
    - now apply FromHeader_macaroon with h. }
  split; [exact Hf |]. unfold decodeMacaroonField in *. split.
  - intros mac pre. split.
    + intros Hr.
      destruct (hex.DecodeString v) as [macBytes|]; [|discriminate].
      destruct (UnmarshalBinary macBytes) as [mac'|] eqn:Hu; [|discriminate].
      destruct (ExtractCaveat mac' CondPreimage) as [preimageHex|] eqn:He;
        [|discriminate].
      destruct (lntypes.MakePreimageFromStr preimageHex) as [pre'|] eqn:Hp;
        [|discriminate].
      inversion Hr; subst. apply MakePreimageFromStr_iff in Hp as [Hd Hl].
      exists macBytes, preimageHex. auto.
    + intros (macBytes & preimageHex & Hd & Hu & He & Hp & Hl).
      rewrite Hd, Hu, He.
      now rewrite (proj2 (MakePreimageFromStr_iff preimageHex pre) (conj Hp Hl)).
  - intros macBytes mac err Hd Hu He. rewrite Hd, Hu, He in *.
    split; [reflexivity |]. intros auth serviceName.
    rewrite (Accept_denies_decode_failure auth w l serviceName _ w Hf).
    eexists. split; reflexivity.
Qed.

(** C6: when none of the three fields holds a value, [FromHeader]
    fails with the error "no auth header provided", and [Accept]
    returns [false] without a call to the minter. *)
Theorem FromHeader_no_credential auth w l h (serviceName : string) :
  heap w !! l = Some h ->
  http.Get h HeaderAuthorization = "" ->
  http.Get h HeaderMacaroonMD = "" ->
  http.Get h HeaderMacaroon = "" ->
  FromHeader l w = Some (inr (Errorf "no auth header provided" []), w) /\
  exists w', Accept auth l serviceName w = Some (false, w') /\
    heap w' = heap w /\ minterState w' = minterState w.
Proof.
  intros Hh Ha Hmd Hm.
  pose proof (FromHeader_none w l h Hh Ha Hmd Hm) as Hf.
  split; [exact Hf |].
  rewrite (Accept_denies_decode_failure auth w l serviceName _ w Hf).
  eexists. repeat split; reflexivity.
Qed.


(** C7: [SetHeader] returns an error only when [MarshalBinary] does;
    it then returns that error and changes nothing.  Otherwise it
    returns nil and the [Authorization] field of the header holds
    [LSAT <base64 of the macaroon bytes>:<hex of the preimage>]. *)
Theorem SetHeader_result w l h (mac : Macaroon) (preimage : bytes) :
  heap w !! l = Some h ->
  (forall macBytes e,
     MarshalBinary mac = (macBytes, Some e) ->
     SetHeader l mac preimage w = Some (Some e, w)) /\
  (forall macBytes,
     MarshalBinary mac = (macBytes, None) ->
     SetHeader l mac preimage w
     = Some (None,
             mkWorld
               (<[l := <["Authorization" :=
                          ["LSAT " +:+ base64.EncodeToString macBytes +:+ ":" +:+
                           hex.EncodeToString preimage]]> h]> (heap w))
               (minterState w) (logs w))) /\
  (forall e w', SetHeader l mac preimage w = Some (Some e, w') ->
     snd (MarshalBinary mac) = Some e /\ w' = w).
Proof.
  intros Hh. unfold SetHeader. run.
  destruct (MarshalBinary mac) as [macBytes [e|]] eqn:Hmar.
  - split; [|split].
    + intros macBytes' e' Heq. congruence.
    + intros macBytes' Heq. discriminate.
    + intros e' w' Heq. inversion Heq; subst. auto.
  - rewrite Hh, Sprintf_authFormat. split; [|split].
    + intros macBytes' e' Heq. discriminate.
    + intros macBytes' Heq. inversion Heq; subst. reflexivity.
    + intros e' w' Heq. discriminate.
Qed.

(** C8: a minting failure is returned to the caller as the error,
    with a nil header, after a single call to [MintLSAT].  A failure
    to serialise the minted macaroon does not stop the call: the
    header is composed from whatever bytes [MarshalBinary] returned
    and comes back with a nil error; when those bytes are empty, as
    they are with [macaroon.v2] on error, the macaroon segment is
    empty. *)
Theorem FreshChallengeHeader_failures auth (r : Request) (serviceName : string) w :
  let minted := MintLSAT (minter auth) context.Background
                  (lsat.mkService serviceName lsat.BaseTier) (minterState w) in
  (forall err, fst minted = inr err ->
     exists w',
       FreshChallengeHeader auth r serviceName w = Some ((None, Some err), w') /\
       heap w' = heap w /\ minterState w' = snd minted) /\
  (forall mac paymentRequest macBytes e h,
     fst minted = inl (mac, paymentRequest) ->
     MarshalBinary mac = (macBytes, Some e) ->
     heap w !! Header r = Some h ->
     exists w',
       FreshChallengeHeader auth r serviceName w = Some ((Some (Header r), None), w') /\
       heap w' !! Header r
       = Some (http.Set_ h "WWW-Authenticate"
                 ("LSAT macaroon='" +:+ base64.EncodeToString macBytes +:+
                  "' invoice='" +:+ paymentRequest +:+ "'")) /\
       (macBytes = [] ->
        heap w' !! Header r
        = Some (http.Set_ h "WWW-Authenticate"
                  ("LSAT macaroon='' invoice='" +:+ paymentRequest +:+ "'"))) /\
       minterState w' = snd minted).
Proof.
  intros minted. subst minted. unfold FreshChallengeHeader. run.
  destruct (MintLSAT _ _ _ _) as [[[mac pr] | err] s'] eqn:Hmint; cbn [fst snd].
  - split; [discriminate |].
    intros mac' pr' macBytes e h Heq Hmar Hh. inversion Heq; subst mac' pr'.
    rewrite Hmar. cbn [heap minterState logs]. rewrite Hh, Sprintf_challenge.
    eexists. split; [reflexivity |]. cbn [heap minterState].
    rewrite lookup_insert_eq. repeat split.
    intros ->. reflexivity.
  - split.
    + intros err' Heq. inversion Heq; subst. eexists. repeat split.
    + intros mac pr macBytes e h Heq. discriminate.
Qed.

(** C9: on success the minter is asked for a macaroon for the service
    descriptor [{Name: serviceName, Tier: BaseTier}], the lowest tier,
    and the [WWW-Authenticate] field of the returned header is
    exactly [LSAT macaroon='<base64 of the macaroon bytes>'
    invoice='<payment request>']. *)
Theorem FreshChallengeHeader_challenge auth (r : Request) (serviceName : string) w h
    (mac : Macaroon) (paymentRequest : string) (macBytes : bytes) (s' : st) :
  heap w !! Header r = Some h ->
  MintLSAT (minter auth) context.Background (lsat.mkService serviceName lsat.BaseTier)
    (minterState w) = (inl (mac, paymentRequest), s') ->
  MarshalBinary mac = (macBytes, None) ->
  exists w' h',
    FreshChallengeHeader auth r serviceName w = Some ((Some (Header r), None), w') /\
    heap w' !! Header r = Some h' /\
    h' !! "Www-Authenticate"
    = Some ["LSAT macaroon='" +:+ base64.EncodeToString macBytes +:+
            "' invoice='" +:+ paymentRequest +:+ "'"] /\
    http.Get h' "WWW-Authenticate"
    = "LSAT macaroon='" +:+ base64.EncodeToString macBytes +:+
      "' invoice='" +:+ paymentRequest +:+ "'" /\
    minterState w' = s' /\
    (forall t : lsat.ServiceTier, lsat.BaseTier <= t).
Proof.
  intros Hh Hmint Hmar. unfold FreshChallengeHeader. run.
  rewrite Hmint, Hmar. cbn [heap minterState logs]. rewrite Hh, Sprintf_challenge.
  eexists _, _. split; [reflexivity |]. cbn [heap minterState].
  rewrite lookup_insert_eq. split; [reflexivity |].
  split; [apply lookup_insert_eq |]. split; [apply Get_Set_ |].
  split; [reflexivity |]. intros t. apply N.le_0_l.
Qed.

(** C10: the header [FreshChallengeHeader] returns on success is the
    request's own header, updated in place: one entry, the canonical
    key of [WWW-Authenticate], is set to a single value (replacing
    what was there), every other entry of that header is as before,
    and so is every other header in the store. *)
Theorem FreshChallengeHeader_frame auth (r : Request) (serviceName : string) w
    (hdr : loc) w' :
  FreshChallengeHeader auth r serviceName w = Some ((Some hdr, None), w') ->
  hdr = Header r /\
  exists h h' str,
    heap w !! hdr = Some h /\ heap w' !! hdr = Some h' /\
    heap w' = <[hdr := h']> (heap w) /\
    h' = <["Www-Authenticate" := [str]]> h /\
    http.Get h' "WWW-Authenticate" = str /\
    (forall k, k <> "Www-Authenticate" -> h' !! k = h !! k) /\
    (forall key, http.CanonicalMIMEHeaderKey key <> "Www-Authenticate" ->
       http.Get h' key = http.Get h key) /\
    (forall l', l' <> hdr -> heap w' !! l' = heap w !! l').
Proof.
  unfold FreshChallengeHeader. run.
  destruct (MintLSAT _ _ _ _) as [[[mac pr] | err] s']; [|discriminate].
  destruct (MarshalBinary mac) as [macBytes [e|]];
    cbn [heap minterState logs];
    (destruct (heap w !! Header r) as [h|] eqn:Hh; [|discriminate]);
    intros Heq; inversion Heq; subst hdr w'; clear Heq;
    (split; [reflexivity |]);
    eexists h, _, _; cbn [heap]; rewrite lookup_insert_eq;
    (split; [exact Hh |]); (split; [reflexivity |]); (split; [reflexivity |]);
    (split; [reflexivity |]); (split; [apply Get_Set_ |]);
    ((split; [|split]);
    [ intros k Hk; now apply lookup_insert_ne
    | intros key Hk; unfold http.Get, http.Set_;
      change (http.CanonicalMIMEHeaderKey "WWW-Authenticate") with "Www-Authenticate";
      rewrite lookup_insert_ne; [reflexivity | congruence]
    | intros l' Hl'; apply lookup_insert_ne; congruence ]).
Qed.

End Claims.

(** * The statements at concrete inputs

    The test doubles of [fake] stand in for the macaroon package and
    the minter; the header lives at address 1. *)


(** The malformed values the specification names are format errors:
    too few hexadecimal digits, upper-case digits, no colon. *)
Example FromHeader_rejects_short_hex :
  let v := "LSAT AmFi:000000000000000000000000000000000000000000000000000000000000000" in
  let w := fake.world {[ "Authorization" := [v] ]} in
  FromHeader (H := fake.pkg) 1%positive w = Some (inr (formatError v), logged w v).
Proof. vm_compute. reflexivity. Qed.

Example FromHeader_rejects_upper_case_hex :
  let v := "LSAT AmFi:ABCDEF0000000000000000000000000000000000000000000000000000000000" in
  let w := fake.world {[ "Authorization" := [v] ]} in
  FromHeader (H := fake.pkg) 1%positive w = Some (inr (formatError v), logged w v).
Proof. vm_compute. reflexivity. Qed.

Example FromHeader_rejects_missing_colon :
  let v := "LSAT AmFi" +:+ fake.zeros64 in
  let w := fake.world {[ "Authorization" := [v] ]} in
  FromHeader (H := fake.pkg) 1%positive w = Some (inr (formatError v), logged w v).
Proof. vm_compute. reflexivity. Qed.



Lemma Accept_returns_bool_witness :
  let h : gmap string (list string) :=
    {[ "Macaroon" := [hex.EncodeToString (fst (fake.marshal fake.macPaid))] ]} in
  let w := fake.world h in
  heap w !! 1%positive = Some h /\
  exists w', Accept fake.auth 1%positive "svc" w = Some (true, w') /\ heap w' = heap w.
Proof.
  intros h w.
  assert (Hh : heap w !! 1%positive = Some h) by apply lookup_singleton_eq.
  split; [exact Hh |].
  destruct (Accept_returns_bool fake.auth w 1%positive h "svc" Hh)
    as (r & w1 & b & w' & Hf & Ha & Hheap & Hiff & _).
  exists w'. split; [|exact Hheap].
  rewrite Ha. f_equal. f_equal. apply Hiff.
  exists fake.macPaid, fake.preimage0. split; [|vm_compute; reflexivity].
  vm_compute in Hf. injection Hf as Hr _. rewrite <- Hr. reflexivity.
Defined.

Lemma SetHeader_FromHeader_roundtrip_witness :
  let w := fake.world ∅ in
  heap w !! 1%positive = Some ∅ /\
  @MarshalBinary fake.pkg fake.macPaid = (fst (fake.marshal fake.macPaid), None) /\
  @UnmarshalBinary fake.pkg (fst (fake.marshal fake.macPaid)) = inl fake.macPaid /\
  length fake.preimage0 = 32%nat /\
  exists w1 w2,
    SetHeader (H := fake.pkg) 1%positive fake.macPaid fake.preimage0 w = Some (None, w1) /\
    FromHeader (H := fake.pkg) 1%positive w1 = Some (inl (fake.macPaid, fake.preimage0), w2).
Proof.
  intros w.
  assert (Hh : heap w !! 1%positive = Some ∅) by apply lookup_singleton_eq.
  assert (Hm : @MarshalBinary fake.pkg fake.macPaid = (fst (fake.marshal fake.macPaid), None))
    by (vm_compute; reflexivity).
  assert (Hu : @UnmarshalBinary fake.pkg (fst (fake.marshal fake.macPaid)) = inl fake.macPaid)
    by (vm_compute; reflexivity).
  assert (Hl : length fake.preimage0 = 32%nat) by reflexivity.
  repeat split; try assumption.
  exact (SetHeader_FromHeader_roundtrip (H := fake.pkg) w 1%positive ∅
           fake.macPaid fake.preimage0 _ Hh Hm Hu Hl).
Defined.

Lemma FromHeader_macaroon_only_witness :
  let v := hex.EncodeToString (fst (fake.marshal fake.macPlain)) in
  let h : gmap string (list string) := {[ "Grpc-Metadata-Macaroon" := [v] ]} in
  let w := fake.world h in
  heap w !! 1%positive = Some h /\
  http.Get h HeaderAuthorization = "" /\
  http.Get h HeaderMacaroonMD = v /\ v <> "" /\
  FromHeader (H := fake.pkg) 1%positive w
  = Some (inr (Errorf "unable to extract preimage from macaroon: %v"
                 [VErr (PackageError "macaroons" "caveat not found")]), w) /\
  exists w', Accept fake.auth 1%positive "svc" w = Some (false, w') /\
    minterState w' = (0%nat, 0%nat).
Proof.
  intros v h w.
  assert (Hh : heap w !! 1%positive = Some h) by apply lookup_singleton_eq.
  assert (Ha : http.Get h HeaderAuthorization = "") by (vm_compute; reflexivity).
  assert (Hv : http.Get h HeaderMacaroonMD = v) by (vm_compute; reflexivity).
  assert (Hne : v <> "") by (vm_compute; discriminate).
  split; [exact Hh |]. split; [exact Ha |]. split; [exact Hv |]. split; [exact Hne |].
  destruct (FromHeader_macaroon_only (H := fake.pkg) w 1%positive h v Hh Ha (or_introl Hv) Hne)
    as (r & Hf & _ & Hmiss).
  destruct (Hmiss (fst (fake.marshal fake.macPlain)) fake.macPlain
              (PackageError "macaroons" "caveat not found"))
    as [Hr Hacc]; try (vm_compute; reflexivity).
  split; [now rewrite Hf, Hr |].
  exact (Hacc fake.auth "svc").
Defined.

Lemma FromHeader_no_credential_witness :
  let w := fake.world ∅ in
  heap w !! 1%positive = Some ∅ /\
  FromHeader (H := fake.pkg) 1%positive w
  = Some (inr (Errorf "no auth header provided" []), w) /\
  exists w', Accept fake.auth 1%positive "svc" w = Some (false, w') /\
    heap w' = heap w /\ minterState w' = minterState w.
Proof.
  intros w. split; [apply lookup_singleton_eq |].
  apply (FromHeader_no_credential fake.auth w 1%positive ∅ "svc");
    vm_compute; reflexivity.
Defined.

Lemma SetHeader_result_witness :
  let w := fake.world ∅ in
  heap w !! 1%positive = Some ∅ /\
  SetHeader (H := fake.pkg) 1%positive fake.macBroken fake.preimage0 w
  = Some (Some (PackageError "macaroon" "bad macaroon version"), w) /\
  SetHeader (H := fake.pkg) 1%positive fake.macPlain fake.preimage0 w
  = Some (None,
          mkWorld {[ 1%positive :=
                      {[ "Authorization" := ["LSAT AmFi:" +:+ fake.zeros64] ]} ]}
            (0%nat, 0%nat) []).
Proof.
  intros w.
  assert (Hh : heap w !! 1%positive = Some ∅) by apply lookup_singleton_eq.
  split; [exact Hh |]. split.
  - apply (proj1 (SetHeader_result (H := fake.pkg) w 1%positive ∅
                    fake.macBroken fake.preimage0 Hh) []).
    vm_compute. reflexivity.
  - rewrite (proj1 (proj2 (SetHeader_result (H := fake.pkg) w 1%positive ∅
                             fake.macPlain fake.preimage0 Hh))
               (fst (fake.marshal fake.macPlain))) by (vm_compute; reflexivity).
    vm_compute. reflexivity.
Defined.

Lemma FreshChallengeHeader_failures_witness :
  let h : gmap string (list string) := {[ "Host" := ["example"] ]} in
  let w := fake.world h in
  (exists w',
     FreshChallengeHeader fake.auth (mkRequest 1%positive) "" w
     = Some ((None, Some (PackageError "mint" "no service")), w') /\
     heap w' = heap w /\ minterState w' = (1%nat, 0%nat)) /\
  (exists w',
     FreshChallengeHeader fake.auth (mkRequest 1%positive) "broken" w
     = Some ((Some 1%positive, None), w') /\
     heap w' !! 1%positive
     = Some (http.Set_ h "WWW-Authenticate" "LSAT macaroon='' invoice='lnbc1broken'") /\
     minterState w' = (1%nat, 0%nat)).
Proof.
  intros h w. split.
  - apply (proj1 (FreshChallengeHeader_failures fake.auth (mkRequest 1%positive) "" w)).
    vm_compute. reflexivity.
  - destruct (proj2 (FreshChallengeHeader_failures fake.auth (mkRequest 1%positive)
                       "broken" w)
                (fake.mkMacaroon 9 "broken") "lnbc1broken" []
                (PackageError "macaroon" "bad macaroon version") h)
      as (w' & Hf & _ & Hempty & Hst); try (vm_compute; reflexivity).
    exists w'. split; [exact Hf |]. split; [exact (Hempty eq_refl) | exact Hst].
Defined.

Lemma FreshChallengeHeader_challenge_witness :
  let h : gmap string (list string) := {[ "Host" := ["example"] ]} in
  let w := fake.world h in
  heap w !! 1%positive = Some h /\
  exists w' h',
    FreshChallengeHeader fake.auth (mkRequest 1%positive) "svc" w
    = Some ((Some 1%positive, None), w') /\
    heap w' !! 1%positive = Some h' /\
    http.Get h' "WWW-Authenticate" = "LSAT macaroon='AnN2Yw==' invoice='lnbc1invoice'" /\
    minterState w' = (1%nat, 0%nat).
Proof.
  intros h w.
  assert (Hh : heap w !! 1%positive = Some h) by apply lookup_singleton_eq.
  split; [exact Hh |].
  destruct (FreshChallengeHeader_challenge fake.auth (mkRequest 1%positive) "svc" w h
              (fake.mkMacaroon 2 "svc") "lnbc1invoice"
              (fst (fake.marshal (fake.mkMacaroon 2 "svc"))) (1%nat, 0%nat) Hh)
    as (w' & h' & Hf & Hh' & _ & Hget & Hst & _); try (vm_compute; reflexivity).
  exists w', h'. split; [exact Hf |]. split; [exact Hh' |]. split; [|exact Hst].
  rewrite Hget. vm_compute. reflexivity.
Defined.

Lemma FreshChallengeHeader_frame_witness :
  let h : gmap string (list string) :=
    {[ "Host" := ["example"]; "Www-Authenticate" := ["stale"] ]} in
  let w := fake.world h in
  let str := "LSAT macaroon='AnN2Yw==' invoice='lnbc1invoice'" in
  let w' := mkWorld {[ 1%positive := <["Www-Authenticate" := [str]]> h ]} (1%nat, 0%nat)
              [mkLog LevelDebug "Created new challenge header: [%s]" [VStr str]] in
  FreshChallengeHeader fake.auth (mkRequest 1%positive) "svc" w
  = Some ((Some 1%positive, None), w') /\
  exists h0 h' str',
    heap w !! 1%positive = Some h0 /\ heap w' !! 1%positive = Some h' /\
    h' = <["Www-Authenticate" := [str']]> h0 /\
    (forall k, k <> "Www-Authenticate" -> h' !! k = h0 !! k) /\
    (forall l', l' <> 1%positive -> heap w' !! l' = heap w !! l').
Proof.
  intros h w str w'.
  assert (Hf : FreshChallengeHeader fake.auth (mkRequest 1%positive) "svc" w
               = Some ((Some 1%positive, None), w')) by (vm_compute; reflexivity).
  split; [exact Hf |].
  destruct (FreshChallengeHeader_frame fake.auth (mkRequest 1%positive) "svc" w
              1%positive w' Hf)
    as (_ & h0 & h' & str' & Hh0 & Hh' & _ & Heq & _ & Hother & _ & Hlocs).
  exists h0, h', str'. auto.
Defined.

(** * Further properties of the codec and the authenticator *)

Lemma lowerHex_fromHexChar (c : ascii) :
  lowerHex c = true -> is_Some (hex.fromHexChar c).
Proof.
  destruct c as [[] [] [] [] [] [] [] []]; vm_compute; intros Hc;
    first [discriminate Hc | eauto].
Qed.

Lemma hex_decode_lowerHex :
  forall (n : nat) (s : string),
    String.length s = (2 * n)%nat -> allChars lowerHex s = true ->
    exists bs, hex.DecodeString s = inl bs.
Proof.
  induction n as [|n IH]; intros s Hlen Hall.
  - destruct s; [|discriminate]. exists []. reflexivity.
  - destruct s as [|a [|b rest]]; try (simpl in Hlen; lia).
    cbn [allChars] in Hall. apply andb_true_iff in Hall as [Ha Hall].
    apply andb_true_iff in Hall as [Hb Hall].
    destruct (lowerHex_fromHexChar a Ha) as [x Hx].
    destruct (lowerHex_fromHexChar b Hb) as [y Hy].
    destruct (IH rest) as [bs Hbs]; [simpl in Hlen; lia | exact Hall |].
    cbn [hex.DecodeString]. rewrite Hx, Hy. fold hex.DecodeString. rewrite Hbs. eauto.
Qed.

Lemma MakePreimageFromStr_hex64 (p : string) :
  hex64 p -> exists pre, lntypes.MakePreimageFromStr p = inl pre.
Proof.
  intros [Hlen Hall].
  destruct (hex_decode_lowerHex 32 p Hlen Hall) as [bs Hbs].
  exists bs. apply MakePreimageFromStr_iff. split; [exact Hbs |].
  apply hex_decode_length in Hbs. unfold lntypes.PreimageSize. lia.
Qed.

(** X1: the second length check on the submatches can never fire.  When
    [authRegex] matches, [FindStringSubmatch] returns exactly three
    strings: the match [LSAT m:p] and its two groups, the second of
    which is 64 lower-case hexadecimal digits. *)
Theorem FindStringSubmatch_three (v : string) :
  regexp.MatchString authRegex v = true ->
  length (regexp.FindStringSubmatch authRegex v) = 3%nat /\
  exists m p,
    regexp.FindStringSubmatch authRegex v = ["LSAT " +:+ m +:+ ":" +:+ p; m; p] /\
    allChars anyCharNotNL m = true /\ hex64 p.
Proof.
  unfold regexp.MatchString, regexp.FindStringSubmatch.
  destruct (regexp.search authRegex v) as [ms|] eqn:Hs; [|discriminate].
  intros _. apply search_sound in Hs as (pre & m & p & post & _ & Hm & Hp & ->).
  split; [reflexivity |]. exists m, p. auto.
Qed.

Lemma FindStringSubmatch_three_witness :
  let v := "Bearer x, LSAT AmFi:" +:+ fake.zeros64 in
  regexp.MatchString authRegex v = true /\
  length (regexp.FindStringSubmatch authRegex v) = 3%nat.
Proof.
  intros v.
  assert (Hm : regexp.MatchString authRegex v = true) by (vm_compute; reflexivity).
  split; [exact Hm |]. exact (proj1 (FindStringSubmatch_three v Hm)).
Defined.

Section CodecFacts.

Context {st : Type} `{MacaroonPkg}.

Implicit Types (w : World st) (l : loc) (h : gmap string (list string)).
Implicit Types (auth : LsatAuthenticator st).

(** The result of [FromHeader] is a function of the three fields. *)
Lemma FromHeader_same_fields w1 w2 l1 l2 h1 h2 :
  heap w1 !! l1 = Some h1 -> heap w2 !! l2 = Some h2 ->
  http.Get h2 HeaderAuthorization = http.Get h1 HeaderAuthorization ->
  http.Get h2 HeaderMacaroonMD = http.Get h1 HeaderMacaroonMD ->
  http.Get h2 HeaderMacaroon = http.Get h1 HeaderMacaroon ->
  exists r w1' w2',
    FromHeader l1 w1 = Some (r, w1') /\ FromHeader l2 w2 = Some (r, w2').
Proof.
  intros Hh1 Hh2 Ea Emd Em.
  destruct (String.eqb_spec (http.Get h1 HeaderAuthorization) "") as [Ha | Ha].
  - assert (Ha2 := Ea). rewrite Ha in Ha2.
    destruct (String.eqb_spec (http.Get h1 HeaderMacaroonMD) "") as [Hmd | Hmd].
    + assert (Hmd2 := Emd). rewrite Hmd in Hmd2.
      destruct (String.eqb_spec (http.Get h1 HeaderMacaroon) "") as [Hm | Hm].
      * assert (Hm2 := Em). rewrite Hm in Hm2.
        rewrite (FromHeader_none w1 l1 h1 Hh1 Ha Hmd Hm).
        rewrite (FromHeader_none w2 l2 h2 Hh2 Ha2 Hmd2 Hm2). eauto.
      * rewrite (FromHeader_macaroon w1 l1 h1 _ Hh1 Ha Hmd eq_refl Hm).
        rewrite (FromHeader_macaroon w2 l2 h2 _ Hh2 Ha2 Hmd2 Em Hm). eauto.
    + rewrite (FromHeader_metadata w1 l1 h1 _ Hh1 Ha eq_refl Hmd).
      rewrite (FromHeader_metadata w2 l2 h2 _ Hh2 Ha2 Emd Hmd). eauto.
  - rewrite (FromHeader_authorization w1 l1 h1 _ Hh1 eq_refl Ha).
    rewrite (FromHeader_authorization w2 l2 h2 _ Hh2 Ea Ha). eauto.
Qed.

(** What [FromHeader] does to the world. *)
Lemma FromHeader_effects w l :
  (FromHeader l w = None <-> heap w !! l = None) /\
  forall r w', FromHeader l w = Some (r, w') ->
    heap w' = heap w /\ minterState w' = minterState w /\
    exists h, heap w !! l = Some h /\
      logs w' = logs w ++
        (if String.eqb (http.Get h HeaderAuthorization) "" then []
         else [mkLog LevelDebug "Trying to authorize with header value [%s]."
                 [VStr (http.Get h HeaderAuthorization)]]).
Proof.
  destruct (heap w !! l) as [h|] eqn:Hh.
  - assert (Hrun : exists r w', FromHeader l w = Some (r, w') /\
              heap w' = heap w /\ minterState w' = minterState w /\
              logs w' = logs w ++
                (if String.eqb (http.Get h HeaderAuthorization) "" then []
                 else [mkLog LevelDebug "Trying to authorize with header value [%s]."
                         [VStr (http.Get h HeaderAuthorization)]])).
    { destruct (String.eqb_spec (http.Get h HeaderAuthorization) "") as [Ha | Ha].
      - destruct (FromHeader_same_fields w w l l h h Hh Hh eq_refl eq_refl eq_refl)
          as (r & w1 & _ & Hf & _).
        assert (w1 = w) as ->.
        { destruct (String.eqb_spec (http.Get h HeaderMacaroonMD) "") as [Hmd | Hmd].
          - destruct (String.eqb_spec (http.Get h HeaderMacaroon) "") as [Hm | Hm].
            + rewrite (FromHeader_none w l h Hh Ha Hmd Hm) in Hf. congruence.
            + rewrite (FromHeader_macaroon w l h _ Hh Ha Hmd eq_refl Hm) in Hf. congruence.
          - rewrite (FromHeader_metadata w l h _ Hh Ha eq_refl Hmd) in Hf. congruence. }
        exists r, w. rewrite app_nil_r. auto.
      - rewrite (FromHeader_authorization w l h _ Hh eq_refl Ha).
        eexists _, _. split; [reflexivity |]. auto. }
    destruct Hrun as (r0 & w0 & Hf & Hheap & Hst & Hlogs). split.
    + split; intros Hn; [rewrite Hf in Hn |]; discriminate.
    + intros r w' Hf'. rewrite Hf in Hf'. inversion Hf'; subst. eauto.
  - assert (Hf : FromHeader l w = None).
    { unfold FromHeader, bind, load. now rewrite Hh. }
    split; [tauto |]. intros r w' Hf'. congruence.
Qed.

(** X2: [FromHeader] only reads.  It fails to return exactly when the
    pointer refers to no header; otherwise the headers and the minter's
    state are as before, and the log grows by the one debug line of the
    [Authorization] case when that field is non-empty and by nothing
    otherwise. *)
Theorem FromHeader_frame w l :
  (FromHeader l w = None <-> heap w !! l = None) /\
  forall r w', FromHeader l w = Some (r, w') ->
    heap w' = heap w /\ minterState w' = minterState w /\
    exists h, heap w !! l = Some h /\
      logs w' = logs w ++
        (if String.eqb (http.Get h HeaderAuthorization) "" then []
         else [mkLog LevelDebug "Trying to authorize with header value [%s]."
                 [VStr (http.Get h HeaderAuthorization)]]).
Proof. exact (FromHeader_effects w l). Qed.

(** X3: whatever the layout, a preimage [FromHeader] returns is 32
    bytes long. *)
Theorem FromHeader_preimage_size w l (mac : Macaroon) (pre : bytes) w' :
  FromHeader l w = Some (inl (mac, pre), w') -> length pre = 32%nat.
Proof.
  intros Hf.
  destruct (heap w !! l) as [h|] eqn:Hh.
  2:{ unfold FromHeader, bind, load in Hf. rewrite Hh in Hf. discriminate. }
  assert (Hsize : forall s : string, forall p : bytes,
            lntypes.MakePreimageFromStr s = inl p -> length p = 32%nat).
  { intros s p Hp. now apply MakePreimageFromStr_iff in Hp as [_ Hl]. }
  destruct (String.eqb_spec (http.Get h HeaderAuthorization) "") as [Ha | Ha].
  - assert (Hdec : exists v, FromHeader l w = Some (decodeMacaroonField v, w) \/
                             FromHeader l w = Some (inr (Errorf "no auth header provided" []), w)).
    { destruct (String.eqb_spec (http.Get h HeaderMacaroonMD) "") as [Hmd | Hmd].
      - destruct (String.eqb_spec (http.Get h HeaderMacaroon) "") as [Hm | Hm].
        + exists "". right. now apply FromHeader_none with h.
        + eexists. left. now apply FromHeader_macaroon with h.
      - eexists. left. now apply FromHeader_metadata with h. }
    destruct Hdec as [v [Hd | Hd]]; rewrite Hd in Hf; [|discriminate].
    unfold decodeMacaroonField in Hf.
    destruct (hex.DecodeString v) as [macBytes|]; [|discriminate].
    destruct (UnmarshalBinary macBytes) as [mac'|]; [|discriminate].
    destruct (ExtractCaveat mac' CondPreimage) as [preimageHex|]; [|discriminate].
    destruct (lntypes.MakePreimageFromStr preimageHex) as [pre'|] eqn:Hp; [|discriminate].
    inversion Hf; subst. eauto.
  - rewrite (FromHeader_authorization w l h _ Hh eq_refl Ha) in Hf.
    unfold decodeAuthorization in Hf.
    destruct (regexp.search authRegex _) as [ms|]; [|discriminate].
    destruct (base64.DecodeString _) as [macBytes|]; [|discriminate].
    destruct (UnmarshalBinary macBytes) as [mac'|]; [|discriminate].
    destruct (lntypes.MakePreimageFromStr _) as [pre'|] eqn:Hp; [|discriminate].
    inversion Hf; subst. eauto.
Qed.

(** X4: in the [Authorization] case the preimage never fails to
    decode, since the pattern has already checked its 64 digits: the
    result is a success, the format error, a base64 error or an
    unmarshal error, and never the error "hex decode of preimage
    failed". *)
Theorem FromHeader_authorization_outcomes w l h r w' :
  heap w !! l = Some h ->
  http.Get h HeaderAuthorization <> "" ->
  FromHeader l w = Some (r, w') ->
  (exists mac pre, r = inl (mac, pre)) \/
  r = inr (formatError (http.Get h HeaderAuthorization)) \/
  (exists e, r = inr (Errorf "base64 decode of macaroon failed: %v" [VErr e])) \/
  (exists e, r = inr (Errorf "unable to unmarshal macaroon: %v" [VErr e])).
Proof.
  intros Hh Ha Hf.
  rewrite (FromHeader_authorization w l h _ Hh eq_refl Ha) in Hf.
  inversion Hf; subst r w'. clear Hf. unfold decodeAuthorization.
  destruct (regexp.search authRegex _) as [ms|] eqn:Hs; [|auto].
  apply search_sound in Hs as (before & m & p & after & _ & _ & Hp & ->).
  cbn [nth].
  destruct (base64.DecodeString m) as [macBytes|e]; [|eauto 6].
  destruct (UnmarshalBinary macBytes) as [mac|e]; [|eauto 6].
  destruct (MakePreimageFromStr_hex64 p Hp) as [pre ->]. eauto.
Qed.


(** X5: text after a credential is not read.  When the value starts
    with [LSAT m:p], [m] made of base64 characters and [p] 64
    lower-case hexadecimal digits, appending anything to it leaves the
    result of [FromHeader] as it was. *)
Theorem FromHeader_ignores_trailing_text w1 w2 l1 l2 h1 h2 (m p after : string) :
  heap w1 !! l1 = Some h1 -> heap w2 !! l2 = Some h2 ->
  allChars base64Char m = true -> hex64 p ->
  http.Get h1 HeaderAuthorization = "LSAT " +:+ m +:+ ":" +:+ p ->
  http.Get h2 HeaderAuthorization = "LSAT " +:+ m +:+ ":" +:+ p +:+ after ->
  exists r w1' w2',
    FromHeader l1 w1 = Some (r, w1') /\ FromHeader l2 w2 = Some (r, w2').
Proof.
  intros Hh1 Hh2 Hm Hp Hv1 Hv2.
  rewrite (FromHeader_authorization w1 l1 h1 _ Hh1 Hv1) by discriminate.
  rewrite (FromHeader_authorization w2 l2 h2 _ Hh2 Hv2) by discriminate.
  unfold decodeAuthorization.
  rewrite (search_exact m p Hm Hp), (search_exact_post m p after Hm Hp). eauto.
Qed.

(** X6: an [Authorization] field that is present but holds no value, or
    an empty first value, does not stop the fallback: [FromHeader]
    returns what it returns for the header without that field, and
    logs nothing. *)
Theorem FromHeader_empty_authorization_falls_through w w2 l l2 h (rest : list string) :
  heap w !! l = Some h ->
  (h !! "Authorization" = Some [] \/ h !! "Authorization" = Some ("" :: rest)) ->
  heap w2 !! l2 = Some (delete "Authorization" h) ->
  exists r, FromHeader l w = Some (r, w) /\ FromHeader l2 w2 = Some (r, w2).
Proof.
  intros Hh Hempty Hh2.
  assert (Ha : http.Get h HeaderAuthorization = "").
  { unfold http.Get.
    change (http.CanonicalMIMEHeaderKey HeaderAuthorization) with "Authorization".
    destruct Hempty as [-> | ->]; reflexivity. }
  assert (Ha2 : http.Get (delete "Authorization" h) HeaderAuthorization = "").
  { unfold http.Get.
    change (http.CanonicalMIMEHeaderKey HeaderAuthorization) with "Authorization".
    now rewrite lookup_delete_eq. }
  assert (Hmd : http.Get (delete "Authorization" h) HeaderMacaroonMD
                = http.Get h HeaderMacaroonMD).
  { unfold http.Get.
    change (http.CanonicalMIMEHeaderKey HeaderMacaroonMD) with "Grpc-Metadata-Macaroon".
    now rewrite lookup_delete_ne by discriminate. }
  assert (Hm : http.Get (delete "Authorization" h) HeaderMacaroon
               = http.Get h HeaderMacaroon).
  { unfold http.Get.
    change (http.CanonicalMIMEHeaderKey HeaderMacaroon) with "Macaroon".
    now rewrite lookup_delete_ne by discriminate. }
  destruct (FromHeader_same_fields w w2 l l2 h _ Hh Hh2) as (r & w1' & w2' & Hf & Hf2);
    [congruence | exact Hmd | exact Hm |].
  exists r.
  assert (Hlogs := proj2 (FromHeader_effects w l) r w1' Hf).
  assert (Hlogs2 := proj2 (FromHeader_effects w2 l2) r w2' Hf2).
  destruct Hlogs as (E1 & E2 & h' & Hh' & E3).
  destruct Hlogs2 as (F1 & F2 & h2' & Hh2' & F3).
  rewrite Hh in Hh'. inversion Hh'; subst h'.
  rewrite Hh2 in Hh2'. inversion Hh2'; subst h2'.
  rewrite Ha in E3. rewrite Ha2 in F3. cbn [String.eqb] in E3, F3.
  rewrite app_nil_r in E3, F3.
  assert (w1' = w) as -> by (destruct w1', w; cbn in *; congruence).
  assert (w2' = w2) as -> by (destruct w2', w2; cbn in *; congruence).
  auto.
Qed.

(** X7: round trip for the macaroon-only layouts.  A
    [Grpc-Metadata-Macaroon] or [Macaroon] field that holds the hex
    encoding of bytes which deserialise to a macaroon whose preimage
    caveat is the hex encoding of a 32-byte preimage decodes to that
    macaroon and that preimage. *)
Theorem FromHeader_macaroon_field_roundtrip w l h (mac : Macaroon)
    (macBytes preimage : bytes) :
  heap w !! l = Some h ->
  http.Get h HeaderAuthorization = "" ->
  (http.Get h HeaderMacaroonMD = hex.EncodeToString macBytes \/
   http.Get h HeaderMacaroonMD = "" /\
   http.Get h HeaderMacaroon = hex.EncodeToString macBytes) ->
  macBytes <> [] ->
  UnmarshalBinary macBytes = inl mac ->
  ExtractCaveat mac CondPreimage = inl (hex.EncodeToString preimage) ->
  length preimage = 32%nat ->
  FromHeader l w = Some (inl (mac, preimage), w).
Proof.
  intros Hh Ha Hsel Hne Hun Hcav Hlen.
  assert (Hv : hex.EncodeToString macBytes <> "").
  { destruct macBytes; [contradiction | discriminate]. }
  assert (Hf : FromHeader l w = Some (decodeMacaroonField (hex.EncodeToString macBytes), w)).
  { destruct Hsel as [Hmd | [Hmd Hm]].
    - now apply FromHeader_metadata with h.
    - now apply FromHeader_macaroon with h. }
  rewrite Hf. unfold decodeMacaroonField.
  rewrite hex_decode_encode, Hun, Hcav.
  change (hex.EncodeToString preimage) with (lntypes.String_ preimage).
  now rewrite MakePreimageFromStr_String.
Qed.

(** [SetHeader] on a macaroon that serialises, and what [FromHeader]
    then reads back. *)
Lemma SetHeader_writes w l h (mac : Macaroon) (preimage macBytes : bytes) :
  heap w !! l = Some h ->
  MarshalBinary mac = (macBytes, None) ->
  SetHeader l mac preimage w
  = Some (None,
          mkWorld (<[l := http.Set_ h HeaderAuthorization
                            ("LSAT " +:+ base64.EncodeToString macBytes +:+ ":" +:+
                             hex.EncodeToString preimage)]> (heap w))
            (minterState w) (logs w)).
Proof.
  intros Hh Hmar. unfold SetHeader. rewrite Hmar. run.
  now rewrite Hh, Sprintf_authFormat.
Qed.

Lemma credential_decodes (mac : Macaroon) (preimage macBytes : bytes) :
  UnmarshalBinary macBytes = inl mac ->
  length preimage = 32%nat ->
  decodeAuthorization ("LSAT " +:+ base64.EncodeToString macBytes +:+ ":" +:+
                       hex.EncodeToString preimage)
  = inl (mac, preimage).
Proof.
  intros Hun Hlen. unfold decodeAuthorization. rewrite search_exact.
  - cbn [nth]. rewrite base64_decode_encode, Hun.
    change (hex.EncodeToString preimage) with (lntypes.String_ preimage).
    now rewrite MakePreimageFromStr_String.
  - apply base64_encode_chars.
  - split; [|apply hex_encode_lowerHex].
    rewrite hex_encode_length, Hlen. reflexivity.
Qed.

(** X8: a credential written by [SetHeader] is accepted exactly when
    the minter verifies it.  For a macaroon that serialises and
    deserialises back to itself and a 32-byte preimage, [Accept] on
    the header [SetHeader] wrote makes one call to [VerifyLSAT], on
    that macaroon, that preimage and the service name, and returns
    [true] iff the call returns nil. *)
Theorem SetHeader_then_Accept auth w l h (mac : Macaroon) (preimage macBytes : bytes)
    (serviceName : string) :
  heap w !! l = Some h ->
  MarshalBinary mac = (macBytes, None) ->
  UnmarshalBinary macBytes = inl mac ->
  length preimage = 32%nat ->
  let verdict := VerifyLSAT (minter auth) context.Background
                   (mint.mkVerificationParams _ mac preimage serviceName)
                   (minterState w) in
  exists w1 w',
    SetHeader l mac preimage w = Some (None, w1) /\
    Accept auth l serviceName w1
    = Some (match fst verdict with None => true | Some _ => false end, w') /\
    minterState w' = snd verdict /\ heap w' = heap w1.
Proof.
  intros Hh Hmar Hun Hlen verdict. subst verdict.
  assert (Hset : exists w1 w2,
            SetHeader l mac preimage w = Some (None, w1) /\
            minterState w1 = minterState w /\
            FromHeader l w1 = Some (inl (mac, preimage), w2)).
  { rewrite (SetHeader_writes w l h mac preimage macBytes Hh Hmar).
    eexists _, _. split; [reflexivity |]. split; [reflexivity |].
    erewrite FromHeader_authorization;
      [ | cbn [heap]; apply lookup_insert_eq | apply Get_Set_ | discriminate ].
    now rewrite (credential_decodes mac preimage macBytes Hun Hlen). }
  destruct Hset as (w1 & w2 & Hs & Hst & Hf).
  destruct (Accept_verifies auth w1 l serviceName mac preimage w2 Hf)
    as (w' & Ha & Hheap & Hms).
  destruct (proj2 (FromHeader_effects w1 l) _ _ Hf) as (Hheap2 & Hst2 & _).
  rewrite Hst2, Hst in Ha, Hms.
  exists w1, w'. split; [exact Hs |]. split; [exact Ha |].
  split; [exact Hms | congruence].
Qed.


(** X9: [SetHeader] touches one entry of one header.  Whether it
    succeeds or not, the minter's state, the log and every other
    header are as before, and in the header it was given every field
    other than [Authorization] reads as before. *)
Theorem SetHeader_frame w l (mac : Macaroon) (preimage : bytes) (res : option error) w' :
  SetHeader l mac preimage w = Some (res, w') ->
  minterState w' = minterState w /\ logs w' = logs w /\
  (forall l', l' <> l -> heap w' !! l' = heap w !! l') /\
  (forall h h', heap w !! l = Some h -> heap w' !! l = Some h' ->
     (forall k, k <> "Authorization" -> h' !! k = h !! k) /\
     (forall key, http.CanonicalMIMEHeaderKey key <> "Authorization" ->
        http.Get h' key = http.Get h key)).
Proof.
  unfold SetHeader. run.
  destruct (MarshalBinary mac) as [macBytes [e|]].
  - intros Heq. inversion Heq; subst. repeat split; auto.
    + intros k _. congruence.
    + intros key _. congruence.
  - destruct (heap w !! l) as [h0|] eqn:Hh; [|discriminate].
    intros Heq. inversion Heq; subst res w'. cbn [heap minterState logs].
    split; [reflexivity |]. split; [reflexivity |]. split.
    + intros l' Hl'. apply lookup_insert_ne. congruence.
    + intros h h' Hh0 Hh'. inversion Hh0; subst h0.
      rewrite lookup_insert_eq in Hh'. inversion Hh'; subst h'. split.
      * intros k Hk. now apply lookup_insert_ne.
      * intros key Hk. unfold http.Get, http.Set_.
        change (http.CanonicalMIMEHeaderKey HeaderAuthorization) with "Authorization".
        rewrite lookup_insert_ne; [reflexivity | congruence].
Qed.

(** X10: the last [SetHeader] wins.  Writing a credential over a header
    that already holds one, from an earlier [SetHeader] or from
    anywhere else, leaves the store exactly as writing it alone would,
    and the field then has the new credential as its single value. *)
Theorem SetHeader_overwrites w l h (mac1 mac2 : Macaroon)
    (preimage1 preimage2 macBytes1 macBytes2 : bytes) :
  heap w !! l = Some h ->
  MarshalBinary mac1 = (macBytes1, None) ->
  MarshalBinary mac2 = (macBytes2, None) ->
  exists w1 w2 h2,
    SetHeader l mac1 preimage1 w = Some (None, w1) /\
    SetHeader l mac2 preimage2 w1 = Some (None, w2) /\
    SetHeader l mac2 preimage2 w = Some (None, w2) /\
    heap w2 !! l = Some h2 /\
    h2 !! "Authorization"
    = Some ["LSAT " +:+ base64.EncodeToString macBytes2 +:+ ":" +:+
            hex.EncodeToString preimage2].
Proof.
  intros Hh Hm1 Hm2.
  rewrite (SetHeader_writes w l h mac1 preimage1 macBytes1 Hh Hm1).
  rewrite (SetHeader_writes w l h mac2 preimage2 macBytes2 Hh Hm2).
  eexists _, _, _. split; [reflexivity |]. split.
  - erewrite SetHeader_writes; [ | cbn [heap]; apply lookup_insert_eq | exact Hm2 ].
    cbn [heap minterState logs]. rewrite insert_insert_eq.
    unfold http.Set_. rewrite insert_insert_eq. reflexivity.
  - split; [reflexivity |]. cbn [heap]. rewrite lookup_insert_eq.
    split; [reflexivity |]. apply lookup_insert_eq.
Qed.

(** X11: what [SetHeader] writes has the strict layout.  For a 32-byte
    preimage the value of the [Authorization] field is [LSAT m:p] and
    nothing else, with [m] made of base64 characters and [p] exactly
    64 lower-case hexadecimal digits, and [authRegex] matches it. *)
Theorem SetHeader_writes_exact_credential w l h (mac : Macaroon)
    (preimage macBytes : bytes) w' :
  heap w !! l = Some h ->
  MarshalBinary mac = (macBytes, None) ->
  length preimage = 32%nat ->
  SetHeader l mac preimage w = Some (None, w') ->
  exists h' m p,
    heap w' !! l = Some h' /\
    http.Get h' HeaderAuthorization = "LSAT " +:+ m +:+ ":" +:+ p /\
    allChars base64Char m = true /\ hex64 p /\
    exactCredential (http.Get h' HeaderAuthorization) /\
    regexp.MatchString authRegex (http.Get h' HeaderAuthorization) = true.
Proof.
  intros Hh Hmar Hlen Hs.
  rewrite (SetHeader_writes w l h mac preimage macBytes Hh Hmar) in Hs.
  inversion Hs; subst w'. clear Hs. cbn [heap]. rewrite lookup_insert_eq.
  assert (Hp : hex64 (hex.EncodeToString preimage)).
  { split; [|apply hex_encode_lowerHex]. rewrite hex_encode_length, Hlen. reflexivity. }
  eexists _, _, _. split; [reflexivity |]. rewrite Get_Set_.
  split; [reflexivity |]. split; [apply base64_encode_chars |]. split; [exact Hp |].
  split.
  - eexists _, _. split; [reflexivity | exact Hp].
  - unfold regexp.MatchString.
    now rewrite (search_exact _ _ (base64_encode_chars macBytes) Hp).
Qed.


(** [FreshChallengeHeader], run. *)
Lemma FreshChallengeHeader_run auth (r : Request) (serviceName : string) w :
  FreshChallengeHeader auth r serviceName w =
    match MintLSAT (minter auth) context.Background
            (lsat.mkService serviceName lsat.BaseTier) (minterState w) with
    | (inr err, s') =>
        Some ((None, Some err),
              mkWorld (heap w) s'
                (logs w ++ [mkLog LevelError "Error minting LSAT: %v" [VErr err]]))
    | (inl (mac, paymentRequest), s') =>
        let str := "LSAT macaroon='" +:+ base64.EncodeToString (fst (MarshalBinary mac))
                   +:+ "' invoice='" +:+ paymentRequest +:+ "'" in
        match heap w !! Header r with
        | None => None
        | Some h =>
            Some ((Some (Header r), None),
                  mkWorld (<[Header r := http.Set_ h "WWW-Authenticate" str]> (heap w)) s'
                    ((logs w ++
                      match snd (MarshalBinary mac) with
                      | Some e => [mkLog LevelError "Error serializing LSAT: %v" [VErr e]]
                      | None => []
                      end) ++
                     [mkLog LevelDebug "Created new challenge header: [%s]" [VStr str]]))
        end
    end.
Proof.
  unfold FreshChallengeHeader. run.
  destruct (MintLSAT _ _ _ _) as [[[mac pr] | err] s']; [|reflexivity].
  destruct (MarshalBinary mac) as [macBytes [e|]]; cbn [fst snd heap minterState logs];
    rewrite Sprintf_challenge; destruct (heap w !! Header r); try reflexivity.
  now rewrite app_nil_r.
Qed.

(** X12: a challenge does not disturb a credential.  After a successful
    [FreshChallengeHeader], [FromHeader] returns on every header of the
    store, the request's own included, what it returned before. *)
Theorem FreshChallengeHeader_preserves_credentials auth (r : Request)
    (serviceName : string) w (hdr : loc) w' l h :
  FreshChallengeHeader auth r serviceName w = Some ((Some hdr, None), w') ->
  heap w !! l = Some h ->
  exists res w1 w2,
    FromHeader l w = Some (res, w1) /\ FromHeader l w' = Some (res, w2).
Proof.
  rewrite FreshChallengeHeader_run.
  destruct (MintLSAT _ _ _ _) as [[[mac pr] | err] s']; [|discriminate].
  cbv zeta. destruct (heap w !! Header r) as [h0|] eqn:Hh0; [|discriminate].
  intros Heq Hh. inversion Heq; subst hdr w'. clear Heq.
  destruct (decide (l = Header r)) as [-> | Hne].
  - rewrite Hh0 in Hh. inversion Hh; subst h0.
    eapply FromHeader_same_fields;
      [ exact Hh0 | cbn [heap]; apply lookup_insert_eq | | | ];
      unfold http.Get, http.Set_; rewrite lookup_insert_ne; (reflexivity || discriminate).
  - eapply FromHeader_same_fields;
      [ exact Hh | cbn [heap]; rewrite lookup_insert_ne by congruence; exact Hh | | | ];
      reflexivity.
Qed.

(** X13: what [Accept] leaves behind.  It fails to return exactly when
    the pointer refers to no header.  When decoding fails it does not
    call the minter and logs one line, "Deny: " with the decode error.
    When decoding succeeds it calls [VerifyLSAT] once; a verification
    error is logged as "Deny: LSAT validation failed: " and an
    acceptance logs nothing. *)
Theorem Accept_effects auth w l (serviceName : string) :
  (Accept auth l serviceName w = None <-> heap w !! l = None) /\
  forall r w1 b w',
    FromHeader l w = Some (r, w1) ->
    Accept auth l serviceName w = Some (b, w') ->
    match r with
    | inr err =>
        b = false /\ minterState w' = minterState w /\
        logs w' = logs w1 ++ [mkLog LevelDebug "Deny: %v" [VErr err]]
    | inl (mac, pre) =>
        let verdict := VerifyLSAT (minter auth) context.Background
                         (mint.mkVerificationParams _ mac pre serviceName)
                         (minterState w) in
        minterState w' = snd verdict /\
        match fst verdict with
        | None => b = true /\ logs w' = logs w1
        | Some e =>
            b = false /\
            logs w' = logs w1 ++
              [mkLog LevelDebug "Deny: LSAT validation failed: %v" [VErr e]]
        end
    end.
Proof.
  split.
  - destruct (proj1 (FromHeader_effects w l)) as [Hn1 Hn2].
    unfold Accept, bind. split.
    + intros Ha. destruct (FromHeader l w) as [[r w1]|] eqn:Hf; [|auto].
      exfalso. destruct r as [[mac pre] | err]; revert Ha; run;
        [destruct (VerifyLSAT _ _ _ _) as [[e|] s'] |]; discriminate.
    + intros Hh. now rewrite (Hn2 Hh).
  - intros r w1 b w' Hf Ha.
    destruct (proj2 (FromHeader_effects w l) r w1 Hf) as (_ & Hst & _).
    unfold Accept in Ha. revert Ha. run. rewrite Hf.
    destruct r as [[mac pre] | err].
    + rewrite Hst. cbv zeta.
      destruct (VerifyLSAT _ _ _ _) as [[e|] s']; cbn [fst snd];
        intros Ha; inversion Ha; subst; cbn [minterState logs]; auto.
    + intros Ha. inversion Ha; subst. cbn [minterState logs]. auto.
Qed.

(** X14: what [FreshChallengeHeader] logs.  A minting failure is logged
    once, at error level.  Otherwise the last line logged is the debug
    line carrying exactly the string that was stored in the
    [WWW-Authenticate] field, preceded by one error line when the
    macaroon did not serialise and by nothing when it did. *)
Theorem FreshChallengeHeader_logs auth (r : Request) (serviceName : string) w
    (res : option loc * option error) w' :
  FreshChallengeHeader auth r serviceName w = Some (res, w') ->
  let minted := MintLSAT (minter auth) context.Background
                  (lsat.mkService serviceName lsat.BaseTier) (minterState w) in
  match fst minted with
  | inr err =>
      res = (None, Some err) /\
      logs w' = logs w ++ [mkLog LevelError "Error minting LSAT: %v" [VErr err]]
  | inl (mac, paymentRequest) =>
      exists h' str,
        res = (Some (Header r), None) /\
        heap w' !! Header r = Some h' /\
        http.Get h' "WWW-Authenticate" = str /\
        logs w' =
          (logs w ++
           match snd (MarshalBinary mac) with
           | Some e => [mkLog LevelError "Error serializing LSAT: %v" [VErr e]]
           | None => []
           end) ++
          [mkLog LevelDebug "Created new challenge header: [%s]" [VStr str]]
  end.
Proof.
  rewrite FreshChallengeHeader_run. cbv zeta.
  destruct (MintLSAT _ _ _ _) as [[[mac pr] | err] s']; cbn [fst].
  - destruct (heap w !! Header r) as [h|]; [|discriminate].
    intros Heq. inversion Heq; subst res w'. clear Heq.
    eexists _, _. split; [reflexivity |]. cbn [heap logs].
    rewrite lookup_insert_eq. split; [reflexivity |].
    rewrite Get_Set_. split; reflexivity.
  - intros Heq. inversion Heq; subst. auto.
Qed.



(** X16: in the macaroon-only layouts a field of odd length never gets
    as far as the macaroon package: [FromHeader] fails at the hex
    stage, with the error of [hex.DecodeString] wrapped. *)
Theorem FromHeader_odd_length_field w l h (v : string) :
  heap w !! l = Some h ->
  http.Get h HeaderAuthorization = "" ->
  (http.Get h HeaderMacaroonMD = v \/
   http.Get h HeaderMacaroonMD = "" /\ http.Get h HeaderMacaroon = v) ->
  Nat.odd (String.length v) = true ->
  exists e,
    hex.DecodeString v = inr e /\
    FromHeader l w
    = Some (inr (Errorf "hex decode of macaroon failed: %v" [VErr e]), w).
Proof.
  intros Hh Ha Hsel Hodd.
  assert (Hne : v <> "") by (intros ->; discriminate).
  assert (Hf : FromHeader l w = Some (decodeMacaroonField v, w)).
  { destruct Hsel as [Hmd | [Hmd Hm]].
    - now apply FromHeader_metadata with h.
    - now apply FromHeader_macaroon with h. }
  rewrite Hf. unfold decodeMacaroonField.
  destruct (hex.DecodeString v) as [bs|e] eqn:Hd; [|eauto].
  apply hex_decode_length in Hd. rewrite Hd in Hodd.
  rewrite Nat.odd_mul in Hodd. discriminate.
Qed.

End CodecFacts.

(** ** Further statements at concrete inputs *)

Lemma FromHeader_frame_witness :
  let v := "LSAT AmFi:" +:+ fake.zeros64 in
  let w := fake.world {[ "Authorization" := [v] ]} in
  FromHeader (H := fake.pkg) 1%positive w
  = Some (inl (fake.macPlain, fake.preimage0), logged w v) /\
  heap (logged w v) = heap w /\ minterState (logged w v) = minterState w.
Proof.
  intros v w.
  assert (Hf : FromHeader (H := fake.pkg) 1%positive w
               = Some (inl (fake.macPlain, fake.preimage0), logged w v))
    by (vm_compute; reflexivity).
  split; [exact Hf |].
  destruct (proj2 (FromHeader_frame (H := fake.pkg) w 1%positive) _ _ Hf)
    as (Hheap & Hst & _).
  split; assumption.
Defined.

Lemma FromHeader_preimage_size_witness :
  let w := fake.world
             {[ "Macaroon" := [hex.EncodeToString (fst (fake.marshal fake.macPaid))] ]} in
  FromHeader (H := fake.pkg) 1%positive w = Some (inl (fake.macPaid, fake.preimage0), w) /\
  length fake.preimage0 = 32%nat.
Proof.
  intros w.
  assert (Hf : FromHeader (H := fake.pkg) 1%positive w
               = Some (inl (fake.macPaid, fake.preimage0), w))
    by (vm_compute; reflexivity).
  split; [exact Hf |].
  exact (FromHeader_preimage_size (H := fake.pkg) w 1%positive _ _ w Hf).
Defined.

Lemma FromHeader_authorization_outcomes_witness :
  let v := "LSAT !!!!:" +:+ fake.zeros64 in
  let h : gmap string (list string) := {[ "Authorization" := [v] ]} in
  let w := fake.world h in
  let r := inr (Errorf "base64 decode of macaroon failed: %v"
                  [VErr (Base64CorruptInputError 0)]) in
  heap w !! 1%positive = Some h /\
  http.Get h HeaderAuthorization <> "" /\
  FromHeader (H := fake.pkg) 1%positive w = Some (r, logged w v) /\
  ((exists mac pre, r = inl (mac, pre)) \/
   r = inr (formatError (http.Get h HeaderAuthorization)) \/
   (exists e, r = inr (Errorf "base64 decode of macaroon failed: %v" [VErr e])) \/
   (exists e, r = inr (Errorf "unable to unmarshal macaroon: %v" [VErr e]))).
Proof.
  intros v h w r.
  assert (Hh : heap w !! 1%positive = Some h) by apply lookup_singleton_eq.
  assert (Hne : http.Get h HeaderAuthorization <> "") by (vm_compute; discriminate).
  assert (Hf : FromHeader (H := fake.pkg) 1%positive w = Some (r, logged w v))
    by (vm_compute; reflexivity).
  split; [exact Hh |]. split; [exact Hne |]. split; [exact Hf |].
  exact (FromHeader_authorization_outcomes (H := fake.pkg) w 1%positive h r _ Hh Hne Hf).
Defined.

Lemma FromHeader_ignores_trailing_text_witness :
  let v := "LSAT AmFi:" +:+ fake.zeros64 in
  let h1 : gmap string (list string) := {[ "Authorization" := [v] ]} in
  let h2 : gmap string (list string) := {[ "Authorization" := [v +:+ "0!"] ]} in
  allChars base64Char "AmFi" = true /\ hex64 fake.zeros64 /\
  exists r w1' w2',
    FromHeader (H := fake.pkg) 1%positive (fake.world h1) = Some (r, w1') /\
    FromHeader (H := fake.pkg) 1%positive (fake.world h2) = Some (r, w2').
Proof.
  intros v h1 h2.
  assert (Hm : allChars base64Char "AmFi" = true) by (vm_compute; reflexivity).
  assert (Hp : hex64 fake.zeros64) by (split; vm_compute; reflexivity).
  split; [exact Hm |]. split; [exact Hp |].
  apply (FromHeader_ignores_trailing_text (H := fake.pkg) (fake.world h1) (fake.world h2)
           1%positive 1%positive h1 h2 "AmFi" fake.zeros64 "0!");
    first [ apply lookup_singleton_eq | assumption | vm_compute; reflexivity ].
Defined.

Lemma FromHeader_empty_authorization_falls_through_witness :
  let hexPaid := hex.EncodeToString (fst (fake.marshal fake.macPaid)) in
  let h : gmap string (list string) :=
    {[ "Authorization" := [""]; "Macaroon" := [hexPaid] ]} in
  let w := fake.world h in
  let w2 := fake.world (delete "Authorization" h) in
  h !! "Authorization" = Some [""] /\
  exists r, FromHeader (H := fake.pkg) 1%positive w = Some (r, w) /\
            FromHeader (H := fake.pkg) 1%positive w2 = Some (r, w2).
Proof.
  intros hexPaid h w w2.
  assert (He : h !! "Authorization" = Some [""]) by (vm_compute; reflexivity).
  split; [exact He |].
  apply (FromHeader_empty_authorization_falls_through (H := fake.pkg) w w2
           1%positive 1%positive h []);
    [ apply lookup_singleton_eq | right; exact He | apply lookup_singleton_eq ].
Defined.

Lemma FromHeader_macaroon_field_roundtrip_witness :
  let macBytes := fst (fake.marshal fake.macPaid) in
  let h : gmap string (list string) :=
    {[ "Grpc-Metadata-Macaroon" := [hex.EncodeToString macBytes] ]} in
  let w := fake.world h in
  @UnmarshalBinary fake.pkg macBytes = inl fake.macPaid /\
  @ExtractCaveat fake.pkg fake.macPaid (@CondPreimage fake.pkg)
  = inl (hex.EncodeToString fake.preimage0) /\
  FromHeader (H := fake.pkg) 1%positive w = Some (inl (fake.macPaid, fake.preimage0), w).
Proof.
  intros macBytes h w.
  assert (Hu : @UnmarshalBinary fake.pkg macBytes = inl fake.macPaid)
    by (vm_compute; reflexivity).
  assert (Hc : @ExtractCaveat fake.pkg fake.macPaid (@CondPreimage fake.pkg)
               = inl (hex.EncodeToString fake.preimage0)) by (vm_compute; reflexivity).
  split; [exact Hu |]. split; [exact Hc |].
  apply (FromHeader_macaroon_field_roundtrip (H := fake.pkg) w 1%positive h
           fake.macPaid macBytes fake.preimage0);
    first [ apply lookup_singleton_eq | assumption | left; vm_compute; reflexivity
          | vm_compute; discriminate | vm_compute; reflexivity ].
Defined.

Lemma SetHeader_then_Accept_witness :
  let w := fake.world ∅ in
  exists w1 w',
    SetHeader (H := fake.pkg) 1%positive fake.macPaid fake.preimage0 w = Some (None, w1) /\
    Accept fake.auth 1%positive "svc" w1 = Some (true, w') /\
    minterState w' = (0%nat, 1%nat).
Proof.
  intros w.
  assert (Hh : heap w !! 1%positive = Some ∅) by apply lookup_singleton_eq.
  assert (Hm : @MarshalBinary fake.pkg fake.macPaid = (fst (fake.marshal fake.macPaid), None))
    by (vm_compute; reflexivity).
  assert (Hu : @UnmarshalBinary fake.pkg (fst (fake.marshal fake.macPaid)) = inl fake.macPaid)
    by (vm_compute; reflexivity).
  destruct (SetHeader_then_Accept fake.auth w 1%positive ∅ fake.macPaid fake.preimage0
              (fst (fake.marshal fake.macPaid)) "svc" Hh Hm Hu eq_refl)
    as (w1 & w' & Hs & Ha & Hst & _).
  exists w1, w'. split; [exact Hs |]. split; [exact Ha | exact Hst].
Defined.

Lemma SetHeader_frame_witness :
  let h : gmap string (list string) := {[ "Host" := ["example"] ]} in
  let w := fake.world h in
  let w' := mkWorld {[ 1%positive :=
                        <["Authorization" := ["LSAT AmFi:" +:+ fake.zeros64]]> h ]}
              (0%nat, 0%nat) [] in
  SetHeader (H := fake.pkg) 1%positive fake.macPlain fake.preimage0 w = Some (None, w') /\
  minterState w' = minterState w /\ logs w' = logs w /\
  forall l', l' <> 1%positive -> heap w' !! l' = heap w !! l'.
Proof.
  intros h w w'.
  assert (Hs : SetHeader (H := fake.pkg) 1%positive fake.macPlain fake.preimage0 w
               = Some (None, w')) by (vm_compute; reflexivity).
  split; [exact Hs |].
  destruct (SetHeader_frame (H := fake.pkg) w 1%positive fake.macPlain fake.preimage0
              None w' Hs) as (Hst & Hlogs & Hlocs & _).
  auto.
Defined.

Lemma SetHeader_overwrites_witness :
  let h : gmap string (list string) := {[ "Authorization" := ["Basic abc"] ]} in
  let w := fake.world h in
  exists w1 w2 h2,
    SetHeader (H := fake.pkg) 1%positive fake.macPaid fake.preimage0 w = Some (None, w1) /\
    SetHeader (H := fake.pkg) 1%positive fake.macPlain fake.preimage0 w1 = Some (None, w2) /\
    SetHeader (H := fake.pkg) 1%positive fake.macPlain fake.preimage0 w = Some (None, w2) /\
    heap w2 !! 1%positive = Some h2 /\
    h2 !! "Authorization" = Some ["LSAT AmFi:" +:+ fake.zeros64].
Proof.
  intros h w.
  exact (SetHeader_overwrites (H := fake.pkg) w 1%positive h fake.macPaid fake.macPlain
           fake.preimage0 fake.preimage0 _ _ (lookup_singleton_eq _ _) eq_refl eq_refl).
Defined.

Lemma SetHeader_writes_exact_credential_witness :
  let w := fake.world ∅ in
  let w' := mkWorld {[ 1%positive := {[ "Authorization" := ["LSAT AmFi:" +:+ fake.zeros64] ]} ]}
              (0%nat, 0%nat) [] in
  SetHeader (H := fake.pkg) 1%positive fake.macPlain fake.preimage0 w = Some (None, w') /\
  exists h', heap w' !! 1%positive = Some h' /\
    exactCredential (http.Get h' HeaderAuthorization).
Proof.
  intros w w'.
  assert (Hs : SetHeader (H := fake.pkg) 1%positive fake.macPlain fake.preimage0 w
               = Some (None, w')) by (vm_compute; reflexivity).
  split; [exact Hs |].
  destruct (SetHeader_writes_exact_credential (H := fake.pkg) w 1%positive ∅ fake.macPlain
              fake.preimage0 (fst (fake.marshal fake.macPlain)) w'
              (lookup_singleton_eq _ _) eq_refl eq_refl Hs)
    as (h' & m & p & Hh' & _ & _ & _ & Hexact & _).
  exists h'. auto.
Defined.

Lemma FreshChallengeHeader_preserves_credentials_witness :
  let hexPaid := hex.EncodeToString (fst (fake.marshal fake.macPaid)) in
  let h : gmap string (list string) := {[ "Macaroon" := [hexPaid] ]} in
  let w := fake.world h in
  let str := "LSAT macaroon='AnN2Yw==' invoice='lnbc1invoice'" in
  let w' := mkWorld {[ 1%positive := <["Www-Authenticate" := [str]]> h ]} (1%nat, 0%nat)
              [mkLog LevelDebug "Created new challenge header: [%s]" [VStr str]] in
  FreshChallengeHeader fake.auth (mkRequest 1%positive) "svc" w
  = Some ((Some 1%positive, None), w') /\
  exists res w1 w2,
    FromHeader (H := fake.pkg) 1%positive w = Some (res, w1) /\
    FromHeader (H := fake.pkg) 1%positive w' = Some (res, w2).
Proof.
  intros hexPaid h w str w'.
  assert (Hf : FreshChallengeHeader fake.auth (mkRequest 1%positive) "svc" w
               = Some ((Some 1%positive, None), w')) by (vm_compute; reflexivity).
  split; [exact Hf |].
  exact (FreshChallengeHeader_preserves_credentials fake.auth (mkRequest 1%positive) "svc"
           w 1%positive w' 1%positive h Hf (lookup_singleton_eq _ _)).
Defined.

Lemma Accept_effects_witness :
  let w := fake.world ∅ in
  let err := Errorf "no auth header provided" [] in
  let w' := mkWorld (heap w) (0%nat, 0%nat) [mkLog LevelDebug "Deny: %v" [VErr err]] in
  FromHeader (H := fake.pkg) 1%positive w = Some (inr err, w) /\
  Accept fake.auth 1%positive "svc" w = Some (false, w') /\
  minterState w' = minterState w /\
  logs w' = logs w ++ [mkLog LevelDebug "Deny: %v" [VErr err]].
Proof.
  intros w err w'.
  assert (Hf : FromHeader (H := fake.pkg) 1%positive w = Some (inr err, w))
    by (vm_compute; reflexivity).
  assert (Ha : Accept fake.auth 1%positive "svc" w = Some (false, w'))
    by (vm_compute; reflexivity).
  split; [exact Hf |]. split; [exact Ha |].
  destruct (proj2 (Accept_effects fake.auth w 1%positive "svc") _ _ _ _ Hf Ha)
    as (_ & Hst & Hlogs).
  split; assumption.
Defined.

Lemma FreshChallengeHeader_logs_witness :
  let h : gmap string (list string) := {[ "Host" := ["example"] ]} in
  let w := fake.world h in
  let str := "LSAT macaroon='' invoice='lnbc1broken'" in
  let w' := mkWorld {[ 1%positive := <["Www-Authenticate" := [str]]> h ]} (1%nat, 0%nat)
              [mkLog LevelError "Error serializing LSAT: %v"
                 [VErr (PackageError "macaroon" "bad macaroon version")];
               mkLog LevelDebug "Created new challenge header: [%s]" [VStr str]] in
  FreshChallengeHeader fake.auth (mkRequest 1%positive) "broken" w
  = Some ((Some 1%positive, None), w') /\
  exists h' str',
    heap w' !! 1%positive = Some h' /\
    http.Get h' "WWW-Authenticate" = str' /\
    logs w' = (logs w ++ [mkLog LevelError "Error serializing LSAT: %v"
                            [VErr (PackageError "macaroon" "bad macaroon version")]]) ++
              [mkLog LevelDebug "Created new challenge header: [%s]" [VStr str']].
Proof.
  intros h w str w'.
  assert (Hf : FreshChallengeHeader fake.auth (mkRequest 1%positive) "broken" w
               = Some ((Some 1%positive, None), w')) by (vm_compute; reflexivity).
  split; [exact Hf |].
  destruct (FreshChallengeHeader_logs fake.auth (mkRequest 1%positive) "broken" w _ w' Hf)
    as (h' & str' & _ & Hh' & Hget & Hlogs).
  exists h', str'. split; [exact Hh' |]. split; [exact Hget | exact Hlogs].
Defined.


Lemma FromHeader_odd_length_field_witness :
  let h : gmap string (list string) := {[ "Macaroon" := ["abc"] ]} in
  let w := fake.world h in
  Nat.odd (String.length "abc") = true /\
  exists e,
    hex.DecodeString "abc" = inr e /\
    FromHeader (H := fake.pkg) 1%positive w
    = Some (inr (Errorf "hex decode of macaroon failed: %v" [VErr e]), w).
Proof.
  intros h w. split; [reflexivity |].
  apply (FromHeader_odd_length_field (H := fake.pkg) w 1%positive h "abc");
    [ apply lookup_singleton_eq | vm_compute; reflexivity
    | right; split; vm_compute; reflexivity | reflexivity ].
Defined.
